(* ===== verification/_CoqProject ===== *)
-Q . S2P
Prelude.v
Regex.v
HexValidator.v
Screen.v
Fields.v
PickerSpec.v
Actions.v
Composition.v
ExportSpec.v
Settlements.v
Logo.v
Invariants.v
Races.v
Styles.v
App.v
