(* ===== verification/Prelude.v ===== *)
(** * A verification library for the QR-code generator screen

    The program (repository qr-code-generator) is one React Native screen,
    [src/src/components/AdvancedQRGenerator.js], mounted by [src/App.js].
    The screen keeps its state in React hooks, renders a QR code from it,
    and lets the user edit the content and the two colours, pick a logo,
    and save or share the rendered code.  The parts and how they interact:

    - the hex validator ([hexRegex]/[validateHex], lines 58-59) is an
      ECMAScript regular expression [/^#([0-9A-Fa-f]{6})$/] run by
      [RegExp.prototype.test]; the screen calls it on every keystroke of the
      colour fields, on blur, and to compute [isFormValid] (line 62);
    - the form state (lines 41-56) is read by the render (lines 172-394) and
      written by the synchronous handlers: the text fields' [onChangeText] and
      [onBlur], the logo switch, the colour-picker sub-flow (lines 144-170)
      and the modal's open/close with its [Animated] fade (lines 65-82);
    - the asynchronous handlers [handleShare], [handleSave] (lines 103-142)
      and [handlePickLogo] (lines 84-101) suspend at each [await] on an OS
      service (permissions, [captureRef], the share sheet, the media
      library, the image picker); while suspended, other UI events run;
    - [App] (App.js) mounts the screen with a props object;
    - the style sheets ([StyleSheet.create], lines 396-490 and App.js 26-32)
      style the render's elements, some through style arrays.

    Files, in dependency order, and what each proves:
    - [Prelude]: JavaScript strings as lists of UTF-16 code units
      ([jsstring]), the literal notation [‹"..."›] of scope [qr_scope],
      JavaScript truthiness, [runsTo] (every run of a nondeterministic step
      reaches a goal), the [qr] hint databases and the shared tactics.
    - [Regex] (Module [RegExp]): the fragment of ECMAScript regular
      expressions the code uses, modelled from the ECMAScript specification
      (section 22.2.2): the pattern syntax, the continuation-passing
      backtracking matcher [compile] with [RepeatMatcher] and its empty
      check, the search loop of [RegExpBuiltinExec] behind [test], a
      declarative span semantics [sem], and the refinement theorems
      [compile_correct] and [test_spec].
    - [HexValidator]: [hexRegex] and [validateHex] (lines 58-59); C1
      characterises the accepted strings.
    - [Screen]: props with their defaults (lines 25-36), the hook state and
      the [fadeAnim] ref as the record [State] with one setter per
      [useState], [init_state], [isFormValid] (line 62), the [Animated]
      semantics used by [openModal]/[closeModal] (lines 68-82), the colour
      pickers' handlers (lines 144-166) and the text fields' handlers, the
      render (lines 172-394) as a [View] record, the UI events, which of them
      are enabled in a state (from the render's [disabled] props and the
      modal layering), and [run_sync] for sequences of synchronous events.
      Theorems C5, C6 (picker sessions), C10 (export buttons), C13, C14
      (findings), C16-C18.
    - [Fields]: the three text fields as controlled inputs; C32 (what is
      typed is what the field and the QR code show, with the error flag).
    - [PickerSpec]: the spec's per-field closed/open colour-selection
      machine, and C20 (the screen refines it) and C21 (frame).
    - [Actions]: [handlePickLogo], [handleShare], [handleSave] (lines 84-142)
      as tasks suspended at their [await]s, [resume] for the code after an
      [await] given the settled promise, and the screen as a transition
      system [sys_exec] interleaving UI events with settlements, with
      [reachable].  Theorems: C2 (an invalid form never reaches a permission
      request or a capture), C3 ([processing] is set exactly while the one
      export in flight runs), C4 (each handler ends within three
      settlements), C7-C9 (save and share runs),
      C11 (one picker open at a time), C12 (an interleaving finding), C19
      (logo pick), C22 (a Send press issues exactly the capture of the
      validated state), C23 (every
      reachable state can return to idle).
    - [Composition]: C34, the validation alert of [handleSave] and
      [handleShare] is dead code: the buttons' [disabled] props already
      exclude an invalid form.
    - [ExportSpec]: the spec's export machine (idle, requesting-permission,
      capturing, writing) and C26: every action of the screen leaves the
      phase of the export in flight unchanged or takes one step of it, and
      the phase is idle exactly when [processing] is false; C31, every way
      an export ends, as the spec's error taxonomy classifies it.
    - [Settlements]: C28, without new UI input at most the summed [rank]s
      of the suspended handlers settle, in any order and with any values.
    - [Logo]: the logo switch and the picker against the [QRCode] props;
      C29 (the switch off and on again restores the state), C30 (a pick
      that lands while the switch is off is kept) and C33 (every way a logo
      pick ends, unhandled rejections included).
    - [Invariants]: reachability restricted to the actions satisfying a
      predicate, the five ways a step changes the hook state, and the
      induction principle [reachable_by_ui_inv] built from them; C24 (the fade value rests at 0 or 1, so the opacity
      stays within [0, 1]), C25 (a raised error flag means an invalid
      colour, on runs without a picker Accept for that field).
    - [Races]: C27, the modal can be closed while a Save waits, so
      [captureRef] can run after the QR view is hidden; C35, a logo pick
      and a Save's permission settle to the same state in either order, but
      the image captured has a newly picked logo exactly when the pick
      settled first.
    - [Styles]: the [StyleSheet.create] objects of both files as [gmap]s
      built by an object-literal evaluator with spread, and React Native's
      flattening of style arrays; data only, no property is stated of the
      layout they drive.
    - [App]: the props object App.js passes (a [gmap] from prop names, with
      its style objects), the component's destructuring, the element tree
      App returns and the main button's style array; C15 (the
      [defaultLink] divergence).

    Bounds and fuel: no definition needs fuel.  The matcher recurses on the
    pattern and [repeat_matcher] on the quantifier's maximum; the pattern
    has only bounded quantifiers.  Termination of the asynchronous handlers
    (C4, C28) uses the measure [rank], at most three settlements per
    handler.  Numbers are the code's small constants (sizes, margins, the
    fade's targets 0 and 1) and need no machine width; strings are lists of
    16-bit code units, which the handlers only copy.

    What is not modelled: the flexbox layout the styles drive, the QR
    symbol encoding (library [react-native-qrcode-svg]), the pixels of a
    capture (a capture is the [QRCode] props it renders, taken when
    [captureRef] is called; a capture of a hidden view may be answered by a
    rejection, which the model lets the environment choose), the colour
    space of the colour picker (its [onChange] hex is an input), the
    animation curve and all timing, promises that never settle (C4 and C28
    count settlements), the theme of [useTheme] (read, never used), the
    module imports, and RegExp captures and unbounded quantifiers.  The
    model takes as given that a control under an open full-screen modal
    cannot be pressed.

    Plan for later work: the background picker's session theorems as
    instances of C5/C6; the effects of whole runs as traces checked against
    the spec's error taxonomy (C31 and C33 classify single steps);
    unbounded quantifiers with fuel bounded by the input length in
    [Regex]. *)

From stdpp Require Export base list strings decidable relations.
From Stdlib Require Export ZArith Lia.

Open Scope Z_scope.

(** ** JavaScript strings *)

(** A JavaScript string is a sequence of UTF-16 code units. *)
Abbreviation jsstring := (list Z).

Definition code_unit_ok (u : Z) : Prop := 0 <= u < 65536.

Definition js_wf (s : jsstring) : Prop := Forall code_unit_ok s.

(** An ASCII source literal, as the code units it denotes. *)
Definition js (s : string) : jsstring :=
  map (λ a, Z.of_N (Ascii.N_of_ascii a)) (String.list_ascii_of_string s).

Declare Scope qr_scope.
Delimit Scope qr_scope with qr.
Notation "‹ s ›" := (js s%string) (format "‹ s ›") : qr_scope.
Open Scope qr_scope.

(** [ToBoolean] of a string: only the empty string is falsy. *)
Definition js_truthy (s : jsstring) : bool :=
  match s with [] => false | _ => true end.

(** [ToBoolean] of a value that is a string or [null]/[undefined]. *)
Definition js_truthy_opt (o : option jsstring) : bool :=
  match o with Some s => js_truthy s | None => false end.

(** [a || b] on strings. *)
Definition js_or (a b : jsstring) : jsstring := if js_truthy a then a else b.

(** ** Runs of a nondeterministic step *)

Section RunsTo.
Context {A : Type} (step : A → (A → Prop) → Prop).

(** [runsTo P a]: every way of running [step] from [a] reaches [P]. *)
Inductive runsTo (P : A → Prop) : A → Prop :=
| runsTo_done a : P a → runsTo P a
| runsTo_step a (next : A → Prop) :
    step a next → (∀ b, next b → runsTo P b) → runsTo P a.

Lemma runsTo_weaken (P Q : A → Prop) a :
  runsTo P a → (∀ b, P b → Q b) → runsTo Q a.
Proof.
  intros Hrun HPQ. induction Hrun as [a Ha | a next Hs _ IH].
  - by apply runsTo_done, HPQ.
  - by apply (runsTo_step Q a next Hs).
Qed.
End RunsTo.

(** ** Shared lemmas *)

Lemma js_length s : length (js s) = String.length s.
Proof.
  unfold js. rewrite length_map.
  induction s; simpl; auto.
Qed.

Lemma js_wf_js s : js_wf (js s).
Proof.
  unfold js_wf, js. induction s as [|a s IH]; simpl; constructor; [|done].
  pose proof (Ascii.N_ascii_bounded a). unfold code_unit_ok. lia.
Qed.

Lemma js_wf_app a b : js_wf a → js_wf b → js_wf (a ++ b).
Proof. intros. by apply Forall_app. Qed.

Lemma js_or_truthy a b : js_truthy a = true → js_or a b = a.
Proof. unfold js_or. by intros ->. Qed.

Lemma js_or_empty b : js_or [] b = b.
Proof. reflexivity. Qed.

Lemma js_truthy_nil s : js_truthy s = false ↔ s = [].
Proof. destruct s; simpl; split; congruence. Qed.

(** The search loop of [RegExpBuiltinExec] visits the indices [0 .. n]. *)
Lemma existsb_seq_iff (f : nat → bool) a n :
  existsb f (seq a n) = true ↔ ∃ i, (a ≤ i < a + n)%nat ∧ f i = true.
Proof.
  rewrite existsb_exists. setoid_rewrite in_seq. naive_solver.
Qed.

(** The last element of a non-empty list, with a default for the empty one. *)
Lemma default_last_cons {A} (d x : A) (l : list A) :
  default d (last (x :: l)) = default x (last l).
Proof. rewrite last_cons. by destruct (last l). Qed.

Create HintDb qr.
Create Rewrite HintDb qr_rw.
#[export] Hint Resolve js_wf_js js_wf_app : qr.
#[export] Hint Rewrite js_length js_or_empty : qr_rw.

(** Boolean connectives to propositions, in hypotheses and goal. *)
Ltac bool_to_prop :=
  repeat match goal with
  | H : (_ && _)%bool = true |- _ => apply andb_prop in H as [? ?]
  | H : (_ || _)%bool = false |- _ => apply orb_false_elim in H as [? ?]
  | H : Nat.eqb _ _ = true |- _ => apply Nat.eqb_eq in H
  | H : Nat.eqb _ _ = false |- _ => apply Nat.eqb_neq in H
  | H : bool_decide _ = true |- _ => apply bool_decide_eq_true in H
  | H : bool_decide _ = false |- _ => apply bool_decide_eq_false in H
  end.

(** Inversion that substitutes and forgets the hypothesis. *)
Ltac invc H := inversion H; subst; clear H.
