(* ===== verification/Regex.v ===== *)
(** * ECMAScript regular expressions: the fragment the screen uses

    [hexRegex.test(text)] (AdvancedQRGenerator.js, lines 58-59) runs the
    ECMAScript regular-expression engine.  This file models the part of that
    engine the pattern [/^#([0-9A-Fa-f]{6})$/] exercises, with no flags:
    - the pattern syntax as the inductive [regex];
    - the backtracking matcher [compile] written after ECMAScript 2024,
      section 22.2.2 (CompilePattern / CompileSubpattern): a matcher takes a
      continuation and an end index; [RepeatMatcher] is [repeat_matcher],
      with its empty check;
    - [test]: [RegExp.prototype.test] through [RegExpBuiltinExec], which tries
      the pattern at every [lastIndex] from [0] to the input length;
    - a declarative semantics [sem] of spans [(x, y)] of the input, and the
      refinement theorem [compile_correct] relating the two.
    Captures are not modelled: [test] never reads them.  Quantifiers are
    bounded ([{n}], [{n,m}], [?]); the pattern has no unbounded one. *)

From S2P Require Import Prelude.

Set Warnings "-clear-no-such-hyp".

Module RegExp.

(** ** Syntax *)

Inductive regex :=
| REmpty                                          (** empty Alternative *)
| RClass (invert : bool) (ranges : list (Z * Z))  (** CharacterClass, PatternCharacter *)
| RSeq (r1 r2 : regex)                            (** Alternative Term *)
| RAlt (r1 r2 : regex)                            (** Disjunction [|] *)
| RGroup (r : regex)                              (** capturing group [( )] *)
| RRepeat (r : regex) (min max : nat) (greedy : bool)  (** Atom Quantifier *)
| RBol                                            (** Assertion [^] *)
| REol.                                           (** Assertion [$] *)

(** A PatternCharacter is a one-element CharSet. *)
Definition RChar (c : Z) : regex := RClass false [(c, c)].

(** CharacterSetMatcher's test: [found] is membership in the class;
    the match fails when [found] equals [invert]. *)
Definition in_ranges (rs : list (Z * Z)) (c : Z) : bool :=
  existsb (λ '(lo, hi), (lo <=? c) && (c <=? hi)) rs.

Definition class_accepts (invert : bool) (rs : list (Z * Z)) (c : Z) : bool :=
  xorb (in_ranges rs c) invert.

(** ** The backtracking matcher *)

(** A continuation takes the end index reached; a matcher takes a
    continuation and the current end index.  Success is [true]. *)
Definition cont := nat → bool.
Definition matcher := cont → nat → bool.

(** RepeatMatcher(m, min, max, greedy, x, c), section 22.2.2.3.1. *)
Fixpoint repeat_matcher (m : matcher) (min max : nat) (greedy : bool)
    (c : cont) (x : nat) : bool :=
  match max with
  | O => c x
  | S max' =>
      let d : cont := λ y,
        if (Nat.eqb min 0 && Nat.eqb y x)%bool then false
        else repeat_matcher m (Nat.pred min) max' greedy c y in
      match min with
      | S _ => m d x
      | O => if greedy then m d x || c x else c x || m d x
      end
  end.

Section Matcher.
Variable input : jsstring.

(** CompileSubpattern, without captures. *)
Fixpoint compile (r : regex) : matcher :=
  match r with
  | REmpty => λ c x, c x
  | RClass inv rs => λ c x,
      match input !! x with
      | Some ch => if class_accepts inv rs ch then c (S x) else false
      | None => false
      end
  | RSeq r1 r2 => λ c x, compile r1 (λ y, compile r2 c y) x
  | RAlt r1 r2 => λ c x, compile r1 c x || compile r2 c x
  | RGroup r1 => λ c x, compile r1 c x
  | RRepeat r1 mn mx g => repeat_matcher (compile r1) mn mx g
  | RBol => λ c x, if Nat.eqb x 0 then c x else false
  | REol => λ c x, if Nat.eqb x (length input) then c x else false
  end.

(** ** Declarative semantics: [sem r x y] when [r] matches [input[x..y)]. *)
Inductive sem : regex → nat → nat → Prop :=
| sem_empty x : sem REmpty x x
| sem_class inv rs x ch :
    input !! x = Some ch → class_accepts inv rs ch = true →
    sem (RClass inv rs) x (S x)
| sem_seq r1 r2 x h y : sem r1 x h → sem r2 h y → sem (RSeq r1 r2) x y
| sem_alt_l r1 r2 x y : sem r1 x y → sem (RAlt r1 r2) x y
| sem_alt_r r1 r2 x y : sem r2 x y → sem (RAlt r1 r2) x y
| sem_group r x y : sem r x y → sem (RGroup r) x y
| sem_repeat r mn mx g x y : sem_rep r mn mx x y → sem (RRepeat r mn mx g) x y
| sem_bol : sem RBol 0 0
| sem_eol : sem REol (length input) (length input)
(** [sem_rep r min max x y]: iterations of [r] from [x] to [y]; an
    iteration beyond [min] must consume input (the empty check). *)
with sem_rep : regex → nat → nat → nat → nat → Prop :=
| rep_done r mn x : sem_rep r mn 0 x x
| rep_required r mn mx x h y :
    sem r x h → sem_rep r mn mx h y → sem_rep r (S mn) (S mx) x y
| rep_stop r mx x : sem_rep r 0 (S mx) x x
| rep_more r mx x h y :
    sem r x h → h ≠ x → sem_rep r 0 mx h y → sem_rep r 0 (S mx) x y.

Scheme sem_mut := Induction for sem Sort Prop
with sem_rep_mut := Induction for sem_rep Sort Prop.
Combined Scheme sem_rep_ind_both from sem_mut, sem_rep_mut.
End Matcher.

(** [RegExp.prototype.test] on a regex without the [g] and [y] flags:
    [RegExpBuiltinExec] starts at [lastIndex = 0] and advances by one code
    unit after each failure, up to the input length included. *)
Definition test (r : regex) (s : jsstring) : bool :=
  existsb (compile s r (λ _, true)) (seq 0 (S (length s))).

(** A pattern whose leftmost term is [^]. *)
Fixpoint anchored (r : regex) : bool :=
  match r with
  | RBol => true
  | RSeq r1 _ | RGroup r1 => anchored r1
  | RAlt r1 r2 => anchored r1 && anchored r2
  | _ => false
  end.

(** ** The matcher refines the span semantics *)

Section Correctness.
Variable input : jsstring.

Definition matcher_spec (r : regex) (m : matcher) : Prop :=
  ∀ c x, m c x = true ↔ ∃ y, sem input r x y ∧ c y = true.

(** The equations of [repeat_matcher], one per case of RepeatMatcher. *)
Lemma repeat_matcher_0 m mn g c x : repeat_matcher m mn 0 g c x = c x.
Proof. reflexivity. Qed.

Lemma repeat_matcher_opt m mx g c x :
  repeat_matcher m 0 (S mx) g c x =
  (let d := λ y, if Nat.eqb y x then false else repeat_matcher m 0 mx g c y in
   if g then m d x || c x else c x || m d x).
Proof. reflexivity. Qed.

Lemma repeat_matcher_req m mn mx g c x :
  repeat_matcher m (S mn) (S mx) g c x =
  m (λ y, repeat_matcher m mn mx g c y) x.
Proof. reflexivity. Qed.

Lemma repeat_matcher_correct r m :
  matcher_spec r m →
  ∀ mx mn g c x, repeat_matcher m mn mx g c x = true ↔
    ∃ y, sem_rep input r mn mx x y ∧ c y = true.
Proof.
  unfold matcher_spec. intros Hm mx.
  induction mx as [|mx IH]; intros mn g c x.
  - rewrite repeat_matcher_0. split; [intros; exists x; split; [constructor | done]|].
    intros (y & Hy & Hc). by invc Hy.
  - destruct mn as [|mn].
    + rewrite repeat_matcher_opt. cbv zeta.
      assert (Hstep : m (λ y, if Nat.eqb y x then false
                              else repeat_matcher m 0 mx g c y) x = true ↔
                ∃ h, sem input r x h ∧ h ≠ x ∧
                     ∃ y, sem_rep input r 0 mx h y ∧ c y = true).
      { rewrite Hm. setoid_rewrite <-IH.
        split; intros (h & ? & Hh); exists h;
          destruct (Nat.eqb_spec h x); naive_solver. }
      assert (Hrep : (∃ y, sem_rep input r 0 (S mx) x y ∧ c y = true) ↔
                c x = true ∨ ∃ h, sem input r x h ∧ h ≠ x ∧
                     ∃ y, sem_rep input r 0 mx h y ∧ c y = true).
      { split.
        - intros (y & Hy & Hc). invc Hy; naive_solver.
        - intros [Hc | (h & ? & ? & y & ? & ?)].
          + exists x. split; [constructor | done].
          + exists y. split; [econstructor; eauto | done]. }
      rewrite Hrep. destruct g; rewrite orb_true_iff, Hstep; naive_solver.
    + rewrite repeat_matcher_req, Hm. setoid_rewrite IH. split.
      * intros (h & ? & y & ? & ?). exists y. split; [econstructor; eauto | done].
      * intros (y & Hy & Hc). invc Hy. eauto.
Qed.

(** The backtracking matcher refines the span semantics: for every
    pattern, continuation and start index, the matcher succeeds exactly
    when the pattern matches some span [input[x..y)] whose end the
    continuation accepts. *)
Theorem compile_correct r c x :
  compile input r c x = true ↔ ∃ y, sem input r x y ∧ c y = true.
Proof.
  revert c x. induction r as [| inv rs | r1 IH1 r2 IH2 | r1 IH1 r2 IH2 | r1 IH1
                  | r1 IH1 mn mx g | |]; intros c x; simpl.
  - split; [eauto using sem | intros (y & Hy & ?); by invc Hy].
  - split.
    + destruct (input !! x) as [ch|] eqn:Hx; [|done].
      destruct (class_accepts inv rs ch) eqn:Hacc; [|done].
      eauto using sem.
    + intros (y & Hy & Hc). invc Hy. match goal with H : input !! x = Some _ |- _ => rewrite H end. by case_match.
  - rewrite IH1. setoid_rewrite IH2. split.
    + intros (h & ? & y & ? & ?). eauto using sem.
    + intros (y & Hy & ?). invc Hy. eauto.
  - rewrite orb_true_iff, IH1, IH2. split.
    + intros [(y & ? & ?) | (y & ? & ?)]; eauto using sem.
    + intros (y & Hy & ?). invc Hy; eauto.
  - rewrite IH1. split; intros (y & Hy & ?); [eauto using sem | invc Hy; eauto].
  - rewrite (repeat_matcher_correct r1 _ IH1). split.
    + intros (y & ? & ?). eauto using sem.
    + intros (y & Hy & ?). invc Hy. eauto.
  - destruct (Nat.eqb_spec x 0) as [->|Hx]; split; try done.
    + intros. eauto using sem.
    + intros (y & Hy & ?). by invc Hy.
    + intros (y & Hy & ?). by invc Hy.
  - destruct (Nat.eqb_spec x (length input)) as [->|Hx]; split; try done.
    + intros. eauto using sem.
    + intros (y & Hy & ?). by invc Hy.
    + intros (y & Hy & ?). by invc Hy.
Qed.

(** Every span of the semantics moves forward, and stays inside the
    input when it starts inside it. *)
Lemma sem_bounds :
  (∀ r x y, sem input r x y → (x ≤ y)%nat ∧ ((x ≤ length input)%nat → (y ≤ length input)%nat)) ∧
  (∀ r mn mx x y, sem_rep input r mn mx x y →
     (x ≤ y)%nat ∧ ((x ≤ length input)%nat → (y ≤ length input)%nat)).
Proof.
  apply (sem_rep_ind_both input
    (λ _ x y _, (x ≤ y)%nat ∧ ((x ≤ length input)%nat → (y ≤ length input)%nat))
    (λ _ _ _ x y _, (x ≤ y)%nat ∧ ((x ≤ length input)%nat → (y ≤ length input)%nat)));
    intros; try (match goal with H : _ !! _ = Some _ |- _ => apply lookup_lt_Some in H end);
    lia.
Qed.
End Correctness.

(** [RegExp.prototype.test] refines the span semantics: it answers
    [true] exactly when the pattern matches some span [s[x..y)] of the
    input, with [x <= y <= length s]. *)
Theorem test_spec r s :
  test r s = true ↔
  ∃ x y, (x ≤ y ≤ length s)%nat ∧ sem s r x y.
Proof.
  unfold test. rewrite existsb_seq_iff. setoid_rewrite compile_correct. split.
  - intros (x & Hx & y & Hy & _). exists x, y.
    pose proof (proj1 (sem_bounds s) r x y Hy). split; [lia | done].
  - intros (x & y & Hxy & Hy). exists x. split; [lia | eauto].
Qed.

(** A PatternCharacter accepts its own code unit only. *)
Lemma class_accepts_char c u : class_accepts false [(c, c)] u = true ↔ u = c.
Proof.
  unfold class_accepts, in_ranges. simpl.
  rewrite xorb_false_r, orb_false_r, andb_true_iff, !Z.leb_le. lia.
Qed.

(** [c{n}] for a character class [c]: exactly the next [n] code units,
    each accepted by the class. *)
Lemma sem_rep_class_exact input inv rs n x y :
  sem_rep input (RClass inv rs) n n x y ↔
  y = (x + n)%nat ∧ ∀ k, (k < n)%nat →
    ∃ ch, input !! (x + k)%nat = Some ch ∧ class_accepts inv rs ch = true.
Proof.
  revert x y. induction n as [|n IH]; intros x y.
  - split; [intros Hy; invc Hy; split; [lia | intros; lia]|].
    intros [-> _]. rewrite Nat.add_0_r. constructor.
  - split.
    + intros Hy. invc Hy. match goal with H : sem _ _ _ _ |- _ => invc H end.
      match goal with H : sem_rep _ _ _ _ _ _ |- _ => apply IH in H as [-> Hk] end.
      split; [lia|]. intros [|k] Hlt.
      * rewrite Nat.add_0_r. eauto.
      * destruct (Hk k) as (ch' & Hch' & ?); [lia|].
        exists ch'. by rewrite <-Nat.add_succ_comm.
    + intros [-> Hk]. destruct (Hk 0%nat) as (ch & Hch & ?); [lia|].
      rewrite Nat.add_0_r in Hch.
      apply (rep_required _ _ _ _ _ (S x)); [by econstructor|].
      apply IH. split; [lia|].
      intros k ?. rewrite Nat.add_succ_comm. apply Hk. lia.
Qed.

(** A pattern whose leftmost term is [^] fails at every index but [0]. *)
Lemma compile_anchored input r c x :
  anchored r = true → x ≠ 0%nat → compile input r c x = false.
Proof.
  revert c. induction r; intros c Ha Hx; simpl in *; try done.
  - by apply IHr1.
  - apply andb_prop in Ha as [? ?]. by rewrite IHr1, IHr2.
  - by apply IHr.
  - by destruct (Nat.eqb_spec x 0).
Qed.

(** For an anchored pattern the search loop of [RegExpBuiltinExec]
    amounts to one attempt at index [0]. *)
Theorem test_anchored r s :
  anchored r = true → test r s = compile s r (λ _, true) 0%nat.
Proof.
  intros Ha. unfold test. rewrite <-cons_seq. simpl.
  enough (existsb (compile s r (λ _, true)) (seq 1 (length s)) = false) as ->
    by apply orb_false_r.
  apply not_true_is_false. rewrite existsb_seq_iff.
  intros (x & Hx & Hm). rewrite compile_anchored in Hm; [done | done | lia].
Qed.


End RegExp.
