(* ===== verification/HexValidator.v ===== *)
(** * The hex colour validator

    [const hexRegex = /^#([0-9A-Fa-f]{6})$/;]
    [const validateHex = (text) => hexRegex.test(text);]
    (AdvancedQRGenerator.js, lines 58-59), as a term of [Regex] run by
    [RegExp.test].  The theorem characterises the strings it accepts,
    independently of the regex engine. *)

From S2P Require Import Prelude Regex.
Import RegExp.

Set Warnings "-clear-no-such-hyp".

Module HexValidator.

(** [[0-9A-Fa-f]]: the ranges of the character class, as code units. *)
Definition hex_digit_ranges : list (Z * Z) := [(48, 57); (65, 70); (97, 102)].

(** The pattern parses as the Alternative [^ # (...) $], left-nested as the
    grammar's [Alternative :: Alternative Term] builds it. *)
Definition hexRegex : regex :=
  RSeq (RSeq (RSeq RBol (RChar 35))
             (RGroup (RRepeat (RClass false hex_digit_ranges) 6 6 true)))
       REol.

Definition validateHex (text : jsstring) : bool := test hexRegex text.

(** ** The reference: what the spec says a hex colour is *)

Definition hex_digit (u : Z) : Prop :=
  48 ≤ u ≤ 57 ∨ 65 ≤ u ≤ 70 ∨ 97 ≤ u ≤ 102.

Definition is_hex_digit (u : Z) : bool :=
  (48 <=? u) && (u <=? 57) || (65 <=? u) && (u <=? 70) || (97 <=? u) && (u <=? 102).

Lemma is_hex_digit_spec u : is_hex_digit u = true ↔ hex_digit u.
Proof.
  unfold is_hex_digit, hex_digit.
  rewrite !orb_true_iff, !andb_true_iff, !Z.leb_le. lia.
Qed.

Lemma class_accepts_hex u :
  class_accepts false hex_digit_ranges u = is_hex_digit u.
Proof.
  unfold class_accepts, in_ranges, hex_digit_ranges, is_hex_digit. simpl.
  by rewrite xorb_false_r, orb_false_r, orb_assoc.
Qed.

(** Six class matches from index 1, as a statement on the tail. *)
Lemma six_hex_digits c ds :
  (∀ k, (k < 6)%nat → ∃ ch, (c :: ds) !! (1 + k)%nat = Some ch ∧
          class_accepts false hex_digit_ranges ch = true) ∧ length (c :: ds) = 7%nat ↔
  length ds = 6%nat ∧ Forall hex_digit ds.
Proof.
  setoid_rewrite class_accepts_hex. setoid_rewrite is_hex_digit_spec. simpl.
  rewrite Forall_lookup. split.
  - intros [Hk Hlen]. split; [lia|]. intros k ch Hch.
    destruct (Hk k) as (ch' & ? & ?); [apply lookup_lt_Some in Hch; lia|].
    by simplify_eq.
  - intros [Hlen Hall]. split; [|lia]. intros k Hk.
    destruct (lookup_lt_is_Some_2 ds k) as [ch Hch]; [lia|]. eauto.
Qed.

(** [validateHex] accepts ['#'] followed by six hex digits, and nothing else. *)
Lemma validateHex_iff s :
  validateHex s = true ↔
  ∃ ds, s = 35 :: ds ∧ length ds = 6%nat ∧ Forall hex_digit ds.
Proof.
  unfold validateHex. rewrite test_anchored by done. rewrite compile_correct.
  split.
  - intros (y & Hy & _). invc Hy.
    repeat match goal with
    | H : sem _ (RSeq _ _) _ _ |- _ => invc H
    | H : sem _ (RGroup _) _ _ |- _ => invc H
    | H : sem _ (RRepeat _ _ _ _) _ _ |- _ => invc H
    | H : sem _ RBol _ _ |- _ => invc H
    | H : sem _ REol _ _ |- _ => invc H
    | H : sem _ (RChar _) _ _ |- _ => invc H
    end.
    match goal with H : sem_rep _ _ _ _ _ _ |- _ =>
      apply sem_rep_class_exact in H as [Hend Hk] end.
    destruct s as [|c ds]; [done|]. simpl in *. simplify_eq.
    match goal with H : class_accepts false [(35, 35)] ?u = true |- _ =>
      apply class_accepts_char in H; subst u end.
    exists ds. split; [done|]. apply (six_hex_digits 35). split; [exact Hk | simpl; lia].
  - intros (ds & -> & Hlen & Hall).
    destruct (proj2 (six_hex_digits 35 ds) (conj Hlen Hall)) as [Hk Hlen7].
    exists 7%nat. split; [|done].
    eapply sem_seq; [|rewrite <-Hlen7; constructor].
    eapply sem_seq; [eapply sem_seq; [constructor | by econstructor]|].
    do 2 constructor. apply sem_rep_class_exact. split; [done | exact Hk].
Qed.

(** C1: [validateHex] accepts a string exactly when it has length 7, starts
    with ['#'], and its code units at indices 1 to 6 are hexadecimal digits
    [0-9], [A-F] or [a-f]. *)
Theorem validateHex_spec s :
  validateHex s = true ↔
  length s = 7%nat ∧ s !! 0%nat = Some 35 ∧
  ∀ i, (1 ≤ i < 7)%nat → ∃ c, s !! i = Some c ∧ hex_digit c.
Proof.
  rewrite validateHex_iff. split.
  - intros (ds & -> & Hlen & Hall). split; [simpl; lia|]. split; [done|].
    intros [|i] Hi; [lia|]. simpl.
    destruct (lookup_lt_is_Some_2 ds i) as [c Hc]; [lia|].
    exists c. split; [done|]. by eapply Forall_lookup_1.
  - intros (Hlen & H0 & Hk). destruct s as [|c ds]; [done|]. simplify_eq/=.
    exists ds. split; [done|]. split; [lia|]. apply Forall_lookup. intros i u Hu.
    destruct (Hk (S i)) as (u' & Hu' & ?); [apply lookup_lt_Some in Hu; lia|].
    by simplify_eq/=.
Qed.

(** The scenarios of the spec. *)
Example validateHex_black : validateHex ‹"#000000"› = true.
Proof. reflexivity. Qed.

Example validateHex_five_digits : validateHex ‹"#12345"› = false.
Proof. reflexivity. Qed.

Example validateHex_mixed_case : validateHex ‹"#FfA0b9"› = true.
Proof. reflexivity. Qed.

(** [$] without the [m] flag does not match before a final line feed. *)
Example validateHex_trailing_newline : validateHex (‹"#000000"› ++ [10]) = false.
Proof. reflexivity. Qed.

Example validateHex_seven_digits : validateHex ‹"#0000000"› = false.
Proof. reflexivity. Qed.

End HexValidator.
