(* ===== verification/Screen.v ===== *)
(** * The screen: props, state, render and synchronous handlers

    [AdvancedQRGenerator] (AdvancedQRGenerator.js): its props with their
    defaults (lines 25-36), its hook state and the [fadeAnim] ref (lines
    41-56, 65, 169-170), the derived [isFormValid] (line 62), the render as a
    [View] record (lines 172-394), and the synchronous event handlers: the
    modal's [openModal]/[closeModal] with the [Animated] fade (lines 68-82),
    the colour-picker sub-flow (lines 144-166 and the pickers' [onChange],
    lines 335 and 373), and the inline handlers of the text fields and the
    logo switch (lines 229, 244-248, 264-268, 278).

    React state setters called in one handler are applied in order, each to
    the result of the previous one, and the values they store are computed
    from the state the handler was rendered with; the screen re-renders
    before the next event. *)

From S2P Require Import Prelude Regex HexValidator.
Import HexValidator.

Set Warnings "-clear-no-such-hyp".

Module Screen.

(** ** Props *)

(** The destructured props of lines 25-36.  [None] is [undefined], for which
    the default value of the parameter applies; for [defaultLogo], [None] is
    also [null], which gives the same state. *)
Record Props := mkProps {
  mainButtonText : option jsstring;
  defaultLogo : option jsstring;
  defaultLogoSize : option Z;
  allowCustomization : option bool;
  defaultQRColor : option jsstring;
  defaultBGColor : option jsstring;
  defaultContent : option jsstring;
  defaultLogoBackgroundColor : option jsstring;
}.

Definition p_logoSize (p : Props) : Z := default 30 (defaultLogoSize p).
Definition p_allowCustomization (p : Props) : bool := default true (allowCustomization p).
Definition p_qrColor (p : Props) : jsstring := default ‹"#000000"› (defaultQRColor p).
Definition p_bgColor (p : Props) : jsstring := default ‹"#ffffff"› (defaultBGColor p).
Definition p_content (p : Props) : jsstring := default ‹"https://ejemplo.com"› (defaultContent p).
Definition p_logoBackgroundColor (p : Props) : jsstring :=
  default ‹"transparent"› (defaultLogoBackgroundColor p).

(** ** State *)

(** [fadeAnim] is an [Animated.Value]: its value when at rest ([None] when
    an animation was stopped part-way) and the running [Animated.timing]
    with its target and the callback given to [start]. *)
Inductive anim_callback :=
| NoCallback                (** [start()] in [openModal] *)
| HideModal.                (** [start(() => setModalVisible(false))] in [closeModal] *)

Record Anim := mkAnim {
  anim_value : option Z;
  anim_running : option (Z * anim_callback);
}.

Record State := mkState {
  modalVisible : bool;
  content : jsstring;
  qrColor : jsstring;
  bgColor : jsstring;
  includeLogo : bool;
  logo : option jsstring;
  processing : bool;
  tempQRColor : jsstring;
  tempBGColor : jsstring;
  qrColorError : bool;
  bgColorError : bool;
  showQRColorPicker : bool;
  showBGColorPicker : bool;
  fadeAnim : Anim;
}.

(** The state setters of [useState], and the ref's assignment. *)
Definition setModalVisible (v : bool) (s : State) : State :=
  mkState
    v (content s) (qrColor s) (bgColor s) (includeLogo s) (logo s) (processing s) (tempQRColor s) (tempBGColor s) (qrColorError s) (bgColorError s) (showQRColorPicker s) (showBGColorPicker s) (fadeAnim s).
Definition setContent (v : jsstring) (s : State) : State :=
  mkState
    (modalVisible s) v (qrColor s) (bgColor s) (includeLogo s) (logo s) (processing s) (tempQRColor s) (tempBGColor s) (qrColorError s) (bgColorError s) (showQRColorPicker s) (showBGColorPicker s) (fadeAnim s).
Definition setQRColor (v : jsstring) (s : State) : State :=
  mkState
    (modalVisible s) (content s) v (bgColor s) (includeLogo s) (logo s) (processing s) (tempQRColor s) (tempBGColor s) (qrColorError s) (bgColorError s) (showQRColorPicker s) (showBGColorPicker s) (fadeAnim s).
Definition setBGColor (v : jsstring) (s : State) : State :=
  mkState
    (modalVisible s) (content s) (qrColor s) v (includeLogo s) (logo s) (processing s) (tempQRColor s) (tempBGColor s) (qrColorError s) (bgColorError s) (showQRColorPicker s) (showBGColorPicker s) (fadeAnim s).
Definition setIncludeLogo (v : bool) (s : State) : State :=
  mkState
    (modalVisible s) (content s) (qrColor s) (bgColor s) v (logo s) (processing s) (tempQRColor s) (tempBGColor s) (qrColorError s) (bgColorError s) (showQRColorPicker s) (showBGColorPicker s) (fadeAnim s).
Definition setLogo (v : option jsstring) (s : State) : State :=
  mkState
    (modalVisible s) (content s) (qrColor s) (bgColor s) (includeLogo s) v (processing s) (tempQRColor s) (tempBGColor s) (qrColorError s) (bgColorError s) (showQRColorPicker s) (showBGColorPicker s) (fadeAnim s).
Definition setProcessing (v : bool) (s : State) : State :=
  mkState
    (modalVisible s) (content s) (qrColor s) (bgColor s) (includeLogo s) (logo s) v (tempQRColor s) (tempBGColor s) (qrColorError s) (bgColorError s) (showQRColorPicker s) (showBGColorPicker s) (fadeAnim s).
Definition setTempQRColor (v : jsstring) (s : State) : State :=
  mkState
    (modalVisible s) (content s) (qrColor s) (bgColor s) (includeLogo s) (logo s) (processing s) v (tempBGColor s) (qrColorError s) (bgColorError s) (showQRColorPicker s) (showBGColorPicker s) (fadeAnim s).
Definition setTempBGColor (v : jsstring) (s : State) : State :=
  mkState
    (modalVisible s) (content s) (qrColor s) (bgColor s) (includeLogo s) (logo s) (processing s) (tempQRColor s) v (qrColorError s) (bgColorError s) (showQRColorPicker s) (showBGColorPicker s) (fadeAnim s).
Definition setQRColorError (v : bool) (s : State) : State :=
  mkState
    (modalVisible s) (content s) (qrColor s) (bgColor s) (includeLogo s) (logo s) (processing s) (tempQRColor s) (tempBGColor s) v (bgColorError s) (showQRColorPicker s) (showBGColorPicker s) (fadeAnim s).
Definition setBGColorError (v : bool) (s : State) : State :=
  mkState
    (modalVisible s) (content s) (qrColor s) (bgColor s) (includeLogo s) (logo s) (processing s) (tempQRColor s) (tempBGColor s) (qrColorError s) v (showQRColorPicker s) (showBGColorPicker s) (fadeAnim s).
Definition setShowQRColorPicker (v : bool) (s : State) : State :=
  mkState
    (modalVisible s) (content s) (qrColor s) (bgColor s) (includeLogo s) (logo s) (processing s) (tempQRColor s) (tempBGColor s) (qrColorError s) (bgColorError s) v (showBGColorPicker s) (fadeAnim s).
Definition setShowBGColorPicker (v : bool) (s : State) : State :=
  mkState
    (modalVisible s) (content s) (qrColor s) (bgColor s) (includeLogo s) (logo s) (processing s) (tempQRColor s) (tempBGColor s) (qrColorError s) (bgColorError s) (showQRColorPicker s) v (fadeAnim s).
Definition set_fadeAnim (v : Anim) (s : State) : State :=
  mkState
    (modalVisible s) (content s) (qrColor s) (bgColor s) (includeLogo s) (logo s) (processing s) (tempQRColor s) (tempBGColor s) (qrColorError s) (bgColorError s) (showQRColorPicker s) (showBGColorPicker s) v.

(** The first render: [useState] initial values (lines 41-56, 169-170) and
    [useRef(new Animated.Value(0))] (line 65).  [tempQRColor] and
    [tempBGColor] start from the initial colours. *)
Definition init_state (p : Props) : State :=
  mkState false (p_content p) (p_qrColor p) (p_bgColor p)
    (js_truthy_opt (defaultLogo p)) (defaultLogo p) false
    (p_qrColor p) (p_bgColor p) false false false false
    (mkAnim (Some 0) None).

(** Line 62. *)
Definition isFormValid (s : State) : bool :=
  validateHex (qrColor s) && validateHex (bgColor s).

(** ** The [Animated] value *)

(** A callback passed to [start], run with [{finished}]; the code's callback
    ignores [finished]. *)
Definition run_callback (cb : anim_callback) (s : State) : State :=
  match cb with
  | NoCallback => s
  | HideModal => setModalVisible false s
  end.

(** [Animated.timing(fadeAnim, {toValue}).start(cb)]: [AnimatedValue.animate]
    first stops the running animation, whose callback runs at once with
    [finished: false], then starts the new one. *)
Definition anim_start (toValue : Z) (cb : anim_callback) (s : State) : State :=
  let s1 := match anim_running (fadeAnim s) with
            | Some (_, cb') => run_callback cb' (set_fadeAnim (mkAnim None None) s)
            | None => s
            end in
  set_fadeAnim (mkAnim (anim_value (fadeAnim s1)) (Some (toValue, cb))) s1.

(** The running animation reaches its target and calls back with
    [finished: true]. *)
Definition anim_finish (s : State) : State :=
  match anim_running (fadeAnim s) with
  | Some (v, cb) => run_callback cb (set_fadeAnim (mkAnim (Some v) None) s)
  | None => s
  end.

(** ** Synchronous handlers *)

Definition openModal (s : State) : State :=
  anim_start 1 NoCallback (setModalVisible true s).

Definition closeModal (s : State) : State :=
  anim_start 0 HideModal s.

(** [onChangeText={(text) => { setQRColor(text); setQRColorError(!validateHex(text)); }}] *)
Definition onChangeQRColorText (text : jsstring) (s : State) : State :=
  setQRColorError (negb (validateHex text)) (setQRColor text s).

(** [onBlur={() => setQRColorError(!validateHex(qrColor))}] *)
Definition onBlurQRColor (s : State) : State :=
  setQRColorError (negb (validateHex (qrColor s))) s.

Definition onChangeBGColorText (text : jsstring) (s : State) : State :=
  setBGColorError (negb (validateHex text)) (setBGColor text s).

Definition onBlurBGColor (s : State) : State :=
  setBGColorError (negb (validateHex (bgColor s))) s.

Definition openQRColorModal (s : State) : State :=
  setShowQRColorPicker true (setTempQRColor (qrColor s) s).

Definition closeQRColorModal (s : State) : State :=
  setShowQRColorPicker false s.

Definition confirmQRColor (s : State) : State :=
  setShowQRColorPicker false (setQRColor (tempQRColor s) s).

Definition openBGColorModal (s : State) : State :=
  setShowBGColorPicker true (setTempBGColor (bgColor s) s).

Definition closeBGColorModal (s : State) : State :=
  setShowBGColorPicker false s.

Definition confirmBGColor (s : State) : State :=
  setShowBGColorPicker false (setBGColor (tempBGColor s) s).

(** ** Render *)

(** The props given to [QRCode] (lines 205-217); [qr_logo] holds the logo's
    [uri], [logoSize] and [logoBackgroundColor] when the spread adds them. *)
Record QRProps := mkQRProps {
  qr_value : jsstring;
  qr_size : Z;
  qr_color : jsstring;
  qr_backgroundColor : jsstring;
  qr_logo : option (jsstring * Z * jsstring);
}.

Definition qrCodeProps (p : Props) (s : State) : QRProps :=
  mkQRProps (js_or (content s) ‹" "›) 150 (qrColor s) (bgColor s)
    (match logo s with
     | Some uri =>
         if includeLogo s && js_truthy uri
         then Some (uri, p_logoSize p, p_logoBackgroundColor p) else None
     | None => None
     end).

(** Lines 180-184; "Ver Código QR" has the code unit 243. *)
Definition mainButtonLabel (p : Props) : jsstring :=
  match mainButtonText p with
  | Some t => if js_truthy t then t else
      if p_allowCustomization p then ‹"Generar QR Avanzado"›
      else ‹"Ver C"› ++ [243] ++ ‹"digo QR"›
  | None =>
      if p_allowCustomization p then ‹"Generar QR Avanzado"›
      else ‹"Ver C"› ++ [243] ++ ‹"digo QR"›
  end.

(** What the render (lines 172-394) shows: the main modal and its rows, the
    [value], [error], [disabled], [loading] and [icon] props of the fields,
    the switch and the buttons, and the two colour-picker modals with their
    [value]. *)
Record View := mkView {
  v_mainButtonLabel : jsstring;
  v_mainModal : bool;
  v_qrCode : QRProps;
  v_customization : bool;
  v_qrColorFieldError : bool;
  v_bgColorFieldError : bool;
  v_logoButtonDisabled : bool;
  v_logoButtonChecked : bool;
  v_actionsDisabled : bool;
  v_actionsLoading : bool;
  v_qrPicker : bool;
  v_bgPicker : bool;
  v_qrPickerValue : jsstring;
  v_bgPickerValue : jsstring;
  v_contentValue : jsstring;
  v_qrColorValue : jsstring;
  v_bgColorValue : jsstring;
  v_switchValue : bool;
}.

Definition render (p : Props) (s : State) : View :=
  mkView (mainButtonLabel p) (modalVisible s) (qrCodeProps p s)
    (p_allowCustomization p)
    (qrColorError s) (bgColorError s)
    (negb (includeLogo s)) (js_truthy_opt (logo s))
    (processing s || negb (isFormValid s)) (processing s)
    (p_allowCustomization p && showQRColorPicker s)
    (p_allowCustomization p && showBGColorPicker s)
    (tempQRColor s) (tempBGColor s)
    (content s) (qrColor s) (bgColor s) (includeLogo s).

(** ** UI events *)

(** A press or an input on a control of the render, or the end of the
    running fade.  The close icon and the back button of a modal call the
    same handler; so do a picker's close icon, its Cancel button and the
    back button. *)
Inductive ui_event :=
| PressMainButton
| CloseMainModal
| ChangeContent (text : jsstring)
| ChangeQRColorText (text : jsstring)
| BlurQRColor
| ChangeBGColorText (text : jsstring)
| BlurBGColor
| PressQRColorCircle
| PressBGColorCircle
| ToggleLogo (value : bool)
| PressPickLogo
| PressSave
| PressShare
| QRPickerChange (hex : jsstring)
| CancelQRPicker
| AcceptQRPicker
| BGPickerChange (hex : jsstring)
| CancelBGPicker
| AcceptBGPicker
| FadeAnimationEnd.

(** A colour-picker modal is rendered after the main one and covers it. *)
Definition covered (v : View) : bool := v_qrPicker v || v_bgPicker v.

Definition mainModalTouchable (v : View) : bool := v_mainModal v && negb (covered v).

(** Whether the control the event acts on is rendered, enabled and not
    covered by a modal.  The switch reports the negation of its value. *)
Definition enabled (p : Props) (s : State) (ev : ui_event) : bool :=
  let v := render p s in
  match ev with
  | PressMainButton => negb (v_mainModal v) && negb (covered v)
  | CloseMainModal => mainModalTouchable v
  | ChangeContent _ | ChangeQRColorText _ | BlurQRColor | ChangeBGColorText _
  | BlurBGColor | PressQRColorCircle | PressBGColorCircle =>
      mainModalTouchable v && v_customization v
  | ToggleLogo b =>
      mainModalTouchable v && v_customization v && Bool.eqb b (negb (includeLogo s))
  | PressPickLogo =>
      mainModalTouchable v && v_customization v && negb (v_logoButtonDisabled v)
  | PressSave | PressShare => mainModalTouchable v && negb (v_actionsDisabled v)
  | QRPickerChange _ | CancelQRPicker | AcceptQRPicker => v_qrPicker v && negb (v_bgPicker v)
  | BGPickerChange _ | CancelBGPicker | AcceptBGPicker => v_bgPicker v
  | FadeAnimationEnd => bool_decide (is_Some (anim_running (fadeAnim s)))
  end.

(** The handler of a synchronous event; the presses that start an
    asynchronous handler are dispatched in [Actions]. *)
Definition sync_handler (ev : ui_event) : option (State → State) :=
  match ev with
  | PressMainButton => Some openModal
  | CloseMainModal => Some closeModal
  | ChangeContent t => Some (setContent t)
  | ChangeQRColorText t => Some (onChangeQRColorText t)
  | BlurQRColor => Some onBlurQRColor
  | ChangeBGColorText t => Some (onChangeBGColorText t)
  | BlurBGColor => Some onBlurBGColor
  | PressQRColorCircle => Some openQRColorModal
  | PressBGColorCircle => Some openBGColorModal
  | ToggleLogo b => Some (setIncludeLogo b)
  | PressPickLogo | PressSave | PressShare => None
  | QRPickerChange h => Some (setTempQRColor h)
  | CancelQRPicker => Some closeQRColorModal
  | AcceptQRPicker => Some confirmQRColor
  | BGPickerChange h => Some (setTempBGColor h)
  | CancelBGPicker => Some closeBGColorModal
  | AcceptBGPicker => Some confirmBGColor
  | FadeAnimationEnd => Some anim_finish
  end.

(** A sequence of synchronous events, each on an enabled control. *)
Fixpoint run_sync (p : Props) (evs : list ui_event) (s : State) : option State :=
  match evs with
  | [] => Some s
  | ev :: evs' =>
      if enabled p s ev then
        match sync_handler ev with
        | Some f => run_sync p evs' (f s)
        | None => None
        end
      else None
  end.

(** The screen mounted with no props, and its main modal just opened. *)
Definition no_props : Props := mkProps None None None None None None None None.
Definition opened : State := openModal (init_state no_props).

(** ** Lemmas on the state and the dispatcher *)

(** Equalities between compositions of setters hold field by field. *)
Ltac state_eq s := destruct s; simpl in *; subst; reflexivity.

Lemma run_sync_app p evs1 evs2 s :
  run_sync p (evs1 ++ evs2) s = s1 ← run_sync p evs1 s; run_sync p evs2 s1.
Proof.
  revert s. induction evs1 as [|ev evs1 IH]; intros s; simpl; [done|].
  destruct (enabled p s ev); [|done]. destruct (sync_handler ev); [apply IH | done].
Qed.

(** While the QR picker is open, its [onChange] events only move the
    scratch value, which ends as the last hex received. *)
Lemma run_qr_picker_changes p hs s :
  p_allowCustomization p = true → showQRColorPicker s = true → showBGColorPicker s = false →
  run_sync p (map QRPickerChange hs) s =
  Some (setTempQRColor (default (tempQRColor s) (last hs)) s).
Proof.
  intros Hc Hq Hb. revert s Hq Hb. induction hs as [|h hs IH]; intros s Hq Hb.
  - simpl. f_equal. state_eq s.
  - simpl. unfold enabled, render. simpl. rewrite Hc, Hq, Hb. simpl.
    rewrite IH by (destruct s; done). rewrite default_last_cons. f_equal.
Qed.

(** The preconditions under which a colour circle of the main modal can be
    pressed. *)
Definition circles_pressable (p : Props) (s : State) : Prop :=
  modalVisible s = true ∧ showQRColorPicker s = false ∧ showBGColorPicker s = false ∧
  p_allowCustomization p = true.

Lemma open_qr_picker p s :
  circles_pressable p s →
  run_sync p [PressQRColorCircle] s = Some (openQRColorModal s).
Proof.
  intros (Hm & Hq & Hb & Hc). unfold run_sync, enabled, render. simpl.
  by rewrite Hm, Hq, Hb, Hc.
Qed.

(** C5: a colour-picker session that ends with the Accept button commits
    exactly the last hex the picker reported (the committed colour is
    unchanged when the picker reported nothing), and changes nothing else
    but the scratch value. *)
Theorem qr_picker_confirm p s hs :
  circles_pressable p s →
  run_sync p ([PressQRColorCircle] ++ map QRPickerChange hs ++ [AcceptQRPicker]) s =
  Some (setQRColor (default (qrColor s) (last hs))
          (setTempQRColor (default (qrColor s) (last hs)) s)).
Proof.
  intros Hpress. pose proof Hpress as (Hm & Hq & Hb & Hc).
  rewrite run_sync_app, open_qr_picker by done. simpl.
  rewrite run_sync_app, run_qr_picker_changes by (destruct s; simpl in *; done).
  simpl. unfold enabled, render. simpl. rewrite Hc, Hb. simpl. f_equal. state_eq s.
Qed.

Lemma qr_picker_confirm_witness :
  circles_pressable no_props opened ∧
  run_sync no_props ([PressQRColorCircle] ++ map QRPickerChange [‹"#ff0000"›; ‹"#00ff00"›] ++
                     [AcceptQRPicker]) opened =
  Some (setQRColor ‹"#00ff00"› (setTempQRColor ‹"#00ff00"› opened)).
Proof.
  assert (H : circles_pressable no_props opened) by (repeat split).
  split; [exact H|].
  apply (qr_picker_confirm no_props opened [‹"#ff0000"›; ‹"#00ff00"›] H).
Defined.


(** C6: a colour-picker session that ends with Cancel (or the close icon,
    or the back button) leaves the committed colour as it was before the
    picker opened, whatever the picker reported; only the scratch value
    changes. *)
Theorem qr_picker_cancel p s hs :
  circles_pressable p s →
  run_sync p ([PressQRColorCircle] ++ map QRPickerChange hs ++ [CancelQRPicker]) s =
  Some (setTempQRColor (default (qrColor s) (last hs)) s).
Proof.
  intros Hpress. pose proof Hpress as (Hm & Hq & Hb & Hc).
  rewrite run_sync_app, open_qr_picker by done. simpl.
  rewrite run_sync_app, run_qr_picker_changes by (destruct s; simpl in *; done).
  simpl. unfold enabled, render. simpl. rewrite Hc, Hb. simpl. f_equal. state_eq s.
Qed.

Lemma qr_picker_cancel_witness :
  circles_pressable no_props opened ∧
  run_sync no_props ([PressQRColorCircle] ++ map QRPickerChange [‹"#ff0000"›] ++
                     [CancelQRPicker]) opened =
  Some (setTempQRColor ‹"#ff0000"› opened).
Proof.
  assert (H : circles_pressable no_props opened) by (repeat split).
  split; [exact H|]. apply (qr_picker_cancel no_props opened [‹"#ff0000"›] H).
Defined.


(** What an enabled Save or Send button guarantees to its handler. *)
Lemma export_enabled_guard p s ev :
  ev = PressSave ∨ ev = PressShare → enabled p s ev = true →
  processing s = false ∧ isFormValid s = true.
Proof.
  intros Hev. assert (enabled p s ev = mainModalTouchable (render p s) &&
    negb (processing s || negb (isFormValid s))) as -> by (by destruct Hev as [-> | ->]).
  rewrite andb_true_iff, negb_true_iff, orb_false_iff, negb_false_iff. naive_solver.
Qed.

(** C10: the Save and Send buttons can be pressed exactly when the main
    modal is open and uncovered, no export is in flight, and both colours
    pass [validateHex]. *)
Theorem export_buttons_enabled p s ev :
  ev = PressSave ∨ ev = PressShare →
  enabled p s ev = true ↔
  modalVisible s = true ∧ covered (render p s) = false ∧
  processing s = false ∧ validateHex (qrColor s) = true ∧ validateHex (bgColor s) = true.
Proof.
  intros Hev. assert (enabled p s ev = mainModalTouchable (render p s) &&
    negb (v_actionsDisabled (render p s))) as -> by (by destruct Hev as [-> | ->]).
  unfold mainModalTouchable.
  change (v_mainModal (render p s)) with (modalVisible s).
  change (v_actionsDisabled (render p s)) with (processing s || negb (isFormValid s)).
  unfold isFormValid.
  destruct (modalVisible s), (covered (render p s)), (processing s),
    (validateHex (qrColor s)), (validateHex (bgColor s)); naive_solver.
Qed.

Lemma export_buttons_enabled_witness :
  enabled no_props opened PressSave = true ↔
  modalVisible opened = true ∧ covered (render no_props opened) = false ∧
  processing opened = false ∧ validateHex (qrColor opened) = true ∧
  validateHex (bgColor opened) = true.
Proof. apply (export_buttons_enabled no_props opened PressSave). by left. Defined.


(** C16: the rendered QR code carries the logo exactly when [includeLogo] is
    set and [logo] is a non-empty URI, with the logo size and background
    from the props; in particular a set flag with no logo renders none. *)
Theorem qrCodeProps_logo p s uri sz bg :
  qr_logo (qrCodeProps p s) = Some (uri, sz, bg) ↔
  includeLogo s = true ∧ logo s = Some uri ∧ uri ≠ [] ∧
  sz = p_logoSize p ∧ bg = p_logoBackgroundColor p.
Proof.
  unfold qrCodeProps. simpl. destruct (logo s) as [u|]; [|naive_solver].
  destruct (includeLogo s), u; simpl; naive_solver.
Qed.

(** C17: the QR code of an empty content renders the value [" "]; any other
    content renders as it is. *)
Theorem qrCodeProps_value p s :
  qr_value (qrCodeProps p s) = if decide (content s = []) then ‹" "› else content s.
Proof.
  destruct (decide (content s = [])) as [He|Hne]; unfold qrCodeProps, js_or; simpl.
  - by rewrite He.
  - by destruct (content s).
Qed.

(** C18: opening the main modal, letting the fade-in end, closing it and
    letting the fade-out end returns the screen to the state it started
    from. *)
Theorem modal_open_close_roundtrip p s :
  modalVisible s = false → fadeAnim s = mkAnim (Some 0) None →
  showQRColorPicker s = false → showBGColorPicker s = false →
  run_sync p [PressMainButton; FadeAnimationEnd; CloseMainModal; FadeAnimationEnd] s = Some s.
Proof.
  intros Hm Ha Hq Hb. destruct s; simpl in *; subst.
  unfold enabled, render, covered. simpl. by rewrite !andb_false_r.
Qed.

Lemma modal_open_close_roundtrip_witness :
  run_sync no_props [PressMainButton; FadeAnimationEnd; CloseMainModal; FadeAnimationEnd]
    (init_state no_props) = Some (init_state no_props).
Proof. by apply (modal_open_close_roundtrip no_props (init_state no_props)). Defined.


(** C14: [closeModal]'s completion callback ignores [finished]: pressing
    close twice hides the modal at once, and a press on the main button
    while the second fade-out runs stops it, whose callback hides the modal
    again: the screen stays closed while fading in. *)
Theorem double_close_swallows_reopen p s :
  modalVisible s = true → anim_running (fadeAnim s) = None →
  showQRColorPicker s = false → showBGColorPicker s = false →
  ∃ s', run_sync p [CloseMainModal; CloseMainModal; PressMainButton] s = Some s' ∧
        modalVisible s' = false ∧ anim_running (fadeAnim s') = Some (1, NoCallback).
Proof.
  intros Hm Ha Hq Hb. destruct s as [????????????? [v r]]; simpl in *; subst.
  unfold enabled, render, covered. simpl. rewrite !andb_false_r. simpl. eauto.
Qed.

Lemma double_close_swallows_reopen_witness :
  ∃ s', run_sync no_props [CloseMainModal; CloseMainModal; PressMainButton]
          (anim_finish opened) = Some s' ∧
        modalVisible s' = false ∧ anim_running (fadeAnim s') = Some (1, NoCallback).
Proof. by apply (double_close_swallows_reopen no_props (anim_finish opened)). Defined.


(** C13: [confirmQRColor] does not recompute [qrColorError]: after an
    invalid text in the field, accepting a valid colour in the picker
    leaves the field flagged as an error while its value is valid. *)
Theorem confirm_keeps_stale_error p s t h :
  circles_pressable p s → validateHex t = false → validateHex h = true →
  ∃ s', run_sync p [ChangeQRColorText t; PressQRColorCircle; QRPickerChange h; AcceptQRPicker] s
          = Some s' ∧
        qrColorError s' = true ∧ validateHex (qrColor s') = true ∧
        v_qrColorFieldError (render p s') = true.
Proof.
  intros (Hm & Hq & Hb & Hc) Ht Hh. destruct s; simpl in *; subst.
  unfold enabled, render, covered, onChangeQRColorText. simpl.
  rewrite Hc, Ht. simpl. eexists. split; [reflexivity|]. simpl. by rewrite Hh.
Qed.

Lemma confirm_keeps_stale_error_witness :
  ∃ s', run_sync no_props [ChangeQRColorText ‹"#12"›; PressQRColorCircle;
                           QRPickerChange ‹"#ff0000"›; AcceptQRPicker] opened = Some s' ∧
        qrColorError s' = true ∧ validateHex (qrColor s') = true ∧
        v_qrColorFieldError (render no_props s') = true.
Proof.
  apply (confirm_keeps_stale_error no_props opened); [repeat split | |];
    vm_compute; reflexivity.
Defined.


End Screen.
