(* ===== verification/Fields.v ===== *)
(** * The text fields as controlled inputs

    The three [TextInput]s of the main modal (lines 224-231, 239-251 and
    259-271) are controlled: their [value] prop is the state they write
    with [onChangeText].  So what the user types is what the field shows
    after the re-render, the QR code shows the typed content (a single
    space for an empty one, line 206) or the typed colour, and a colour
    field's [error] prop is the negation of [validateHex] on the typed
    text. *)

From S2P Require Import Prelude Regex HexValidator Screen.
Import HexValidator Screen.

Set Warnings "-clear-no-such-hyp".

Module Fields.

(** The text fields take input whenever the main modal is on top and the
    form is customisable. *)
Lemma text_event_enabled p s ev :
  mainModalTouchable (render p s) = true → p_allowCustomization p = true →
  (∃ t, ev = ChangeContent t ∨ ev = ChangeQRColorText t ∨ ev = ChangeBGColorText t) →
  enabled p s ev = true.
Proof.
  intros Ht Hc (t & [-> | [-> | ->]]); unfold enabled; cbv zeta; rewrite Ht; exact Hc.
Qed.

Lemma run_sync_text p s ev f :
  mainModalTouchable (render p s) = true → p_allowCustomization p = true →
  (∃ t, ev = ChangeContent t ∨ ev = ChangeQRColorText t ∨ ev = ChangeBGColorText t) →
  sync_handler ev = Some f → run_sync p [ev] s = Some (f s).
Proof. intros Ht Hc Hev Hf. simpl. by rewrite text_event_enabled, Hf. Qed.

(** C32: typing a text into any of the three fields, while the main modal
    is on top and the form is customisable, makes the re-rendered field
    show exactly that text; the QR code shows the typed content (a single
    space when it is empty) or the typed colour, and the colour field's
    error flag is set exactly when [validateHex] rejects the text. *)
Theorem typed_text_is_shown p s t :
  mainModalTouchable (render p s) = true → p_allowCustomization p = true →
  (∃ s', run_sync p [ChangeContent t] s = Some s' ∧
         v_contentValue (render p s') = t ∧ qr_value (v_qrCode (render p s')) = js_or t ‹" "›) ∧
  (∃ s', run_sync p [ChangeQRColorText t] s = Some s' ∧
         v_qrColorValue (render p s') = t ∧ qr_color (v_qrCode (render p s')) = t ∧
         v_qrColorFieldError (render p s') = negb (validateHex t)) ∧
  (∃ s', run_sync p [ChangeBGColorText t] s = Some s' ∧
         v_bgColorValue (render p s') = t ∧ qr_backgroundColor (v_qrCode (render p s')) = t ∧
         v_bgColorFieldError (render p s') = negb (validateHex t)).
Proof.
  intros Ht Hc. split; [|split]; eexists;
    (split; [apply run_sync_text; [done | done | eexists; eauto | reflexivity]|]);
    by destruct s.
Qed.

Lemma typed_text_is_shown_witness :
  mainModalTouchable (render no_props opened) = true ∧ p_allowCustomization no_props = true ∧
  (∃ s', run_sync no_props [ChangeContent []] opened = Some s' ∧
         v_contentValue (render no_props s') = [] ∧
         qr_value (v_qrCode (render no_props s')) = js_or [] ‹" "›) ∧
  (∃ s', run_sync no_props [ChangeQRColorText []] opened = Some s' ∧
         v_qrColorValue (render no_props s') = [] ∧ qr_color (v_qrCode (render no_props s')) = [] ∧
         v_qrColorFieldError (render no_props s') = negb (validateHex [])) ∧
  (∃ s', run_sync no_props [ChangeBGColorText []] opened = Some s' ∧
         v_bgColorValue (render no_props s') = [] ∧
         qr_backgroundColor (v_qrCode (render no_props s')) = [] ∧
         v_bgColorFieldError (render no_props s') = negb (validateHex [])).
Proof.
  assert (H1 : mainModalTouchable (render no_props opened) = true) by (vm_compute; reflexivity).
  assert (H2 : p_allowCustomization no_props = true) by reflexivity.
  split; [exact H1|]. split; [exact H2|].
  exact (typed_text_is_shown no_props opened [] H1 H2).
Defined.

End Fields.
