(* ===== verification/PickerSpec.v ===== *)
(** * The colour-selection sub-flow against its abstract machine

    The spec describes, per colour field, a machine with two states: closed
    with a committed colour, or open with a committed colour and a scratch
    value; [open] copies the committed colour into the scratch value,
    picker changes overwrite the scratch value, [confirm] commits it and
    [cancel] drops it.  [picker_step] is that machine; [abstract] reads it
    off a screen state (a picker is open when its modal is rendered).  The
    theorems: each picker event of the screen is a step of the machine
    (refinement), and while a picker is open no other UI event changes its
    field's abstract state (frame). *)

From S2P Require Import Prelude Regex HexValidator Screen.
Import Screen.

Set Warnings "-clear-no-such-hyp".

Module PickerSpec.

Inductive field := QRField | BGField.

Inductive picker_state :=
| Closed (committed : jsstring)
| Open (committed scratch : jsstring).

Inductive picker_op :=
| OpenPicker
| PickerChange (hex : jsstring)
| Confirm
| Cancel.

Definition picker_step (op : picker_op) (a : picker_state) : option picker_state :=
  match op, a with
  | OpenPicker, Closed c => Some (Open c c)
  | PickerChange h, Open c _ => Some (Open c h)
  | Confirm, Open _ t => Some (Closed t)
  | Cancel, Open c _ => Some (Closed c)
  | _, _ => None
  end.

(** The screen's view of a field: committed colour, scratch value, and
    whether its picker modal is rendered. *)
Definition committed (f : field) (s : State) : jsstring :=
  match f with QRField => qrColor s | BGField => bgColor s end.

Definition scratch (f : field) (s : State) : jsstring :=
  match f with QRField => tempQRColor s | BGField => tempBGColor s end.

Definition shown (p : Props) (f : field) (s : State) : bool :=
  match f with
  | QRField => v_qrPicker (render p s)
  | BGField => v_bgPicker (render p s)
  end.

Definition abstract (p : Props) (f : field) (s : State) : picker_state :=
  if shown p f s then Open (committed f s) (scratch f s) else Closed (committed f s).

(** The UI event of the screen that performs an abstract operation. *)
Definition picker_event (f : field) (op : picker_op) : ui_event :=
  match f, op with
  | QRField, OpenPicker => PressQRColorCircle
  | QRField, PickerChange h => QRPickerChange h
  | QRField, Confirm => AcceptQRPicker
  | QRField, Cancel => CancelQRPicker
  | BGField, OpenPicker => PressBGColorCircle
  | BGField, PickerChange h => BGPickerChange h
  | BGField, Confirm => AcceptBGPicker
  | BGField, Cancel => CancelBGPicker
  end.

(** Case analysis on every boolean the render of a state reads. *)
Ltac state_bools s :=
  destruct (p_allowCustomization _), (modalVisible s), (showQRColorPicker s),
    (showBGColorPicker s); simpl in *.

Lemma run_sync_one p ev s s' :
  run_sync p [ev] s = Some s' ↔
  enabled p s ev = true ∧ ∃ f, sync_handler ev = Some f ∧ s' = f s.
Proof.
  simpl. destruct (enabled p s ev), (sync_handler ev); naive_solver.
Qed.

(** C20: the screen refines the abstract colour-selection machine: every
    picker event that the screen accepts moves the field's abstract state by
    the corresponding step of [picker_step]. *)
Theorem picker_events_refine p f op s s' :
  run_sync p [picker_event f op] s = Some s' →
  picker_step op (abstract p f s) = Some (abstract p f s').
Proof.
  rewrite run_sync_one. intros (Hen & g & Hg & ->).
  destruct f, op; simpl in Hg; simplify_eq;
    unfold enabled, render, mainModalTouchable, covered in Hen;
    unfold abstract, shown, render; simpl in *; state_bools s; try done.
Qed.

Lemma picker_events_refine_witness :
  run_sync no_props [picker_event QRField OpenPicker] opened = Some (openQRColorModal opened) ∧
  picker_step OpenPicker (abstract no_props QRField opened) =
  Some (abstract no_props QRField (openQRColorModal opened)).
Proof.
  assert (H : run_sync no_props [picker_event QRField OpenPicker] opened =
              Some (openQRColorModal opened)) by (vm_compute; reflexivity).
  split; [exact H|]. apply (picker_events_refine no_props QRField OpenPicker opened _ H).
Defined.

(** C21: while a field's picker is open, a UI event other than that
    picker's own events leaves the field's committed colour, scratch value
    and open state unchanged. *)
Theorem picker_frame p f s ev s' :
  shown p f s = true → (∀ op, ev ≠ picker_event f op) →
  run_sync p [ev] s = Some s' → abstract p f s' = abstract p f s.
Proof.
  intros Hshown Hother. rewrite run_sync_one. intros (Hen & g & Hg & ->).
  destruct f; destruct ev; simpl in Hg; simplify_eq;
    try (exfalso; by eapply (Hother (PickerChange _)));
    try (exfalso; by eapply (Hother OpenPicker));
    try (exfalso; by eapply (Hother Confirm));
    try (exfalso; by eapply (Hother Cancel));
    unfold enabled, render, mainModalTouchable, covered in Hen;
    unfold abstract, shown, render in *; simpl in *;
    unfold openModal, closeModal, anim_start, anim_finish, run_callback;
    repeat case_match; simpl in *; state_bools s; try done.
Qed.

Lemma picker_frame_witness :
  shown no_props QRField (openQRColorModal opened) = true ∧
  (∀ op, FadeAnimationEnd ≠ picker_event QRField op) ∧
  run_sync no_props [FadeAnimationEnd] (openQRColorModal opened) =
    Some (anim_finish (openQRColorModal opened)) ∧
  abstract no_props QRField (anim_finish (openQRColorModal opened)) =
  abstract no_props QRField (openQRColorModal opened).
Proof.
  assert (H1 : shown no_props QRField (openQRColorModal opened) = true) by reflexivity.
  assert (H2 : ∀ op, FadeAnimationEnd ≠ picker_event QRField op) by (by intros []).
  assert (H3 : run_sync no_props [FadeAnimationEnd] (openQRColorModal opened) =
    Some (anim_finish (openQRColorModal opened))) by (vm_compute; reflexivity).
  split; [exact H1|]. split; [exact H2|]. split; [exact H3|].
  apply (picker_frame no_props QRField _ _ _ H1 H2 H3).
Defined.

End PickerSpec.
