(* ===== verification/Actions.v ===== *)
(** * The asynchronous handlers and the screen as a transition system

    [handlePickLogo] (lines 84-101), [handleShare] (lines 103-117) and
    [handleSave] (lines 119-142) are [async] functions.  Each runs
    synchronously up to its first [await], then is suspended until the OS
    call settles; meanwhile the screen keeps handling UI events.  A
    suspended handler is a [task] naming the [await] it waits on; [resume]
    runs the code after that [await] with the settled value, up to the next
    [await] or the end.  [sys_exec] executes one action of the whole screen:
    a UI event on an enabled control, or the settlement of one suspended
    task; [reachable] closes the initial state under it. *)

From S2P Require Import Prelude Regex HexValidator Screen.
Import HexValidator Screen.

Set Warnings "-clear-no-such-hyp".

Module Actions.

(** ** Calls to the OS and alerts *)

(** "galería" and "código" carry the code units 237 and 243. *)
Definition msg_fix_fields : jsstring := ‹"Por favor, corrige los errores en los campos."›.
Definition msg_pick_denied : jsstring :=
  ‹"Se requiere acceso a la galer"› ++ [237] ++ ‹"a para seleccionar un logo."›.
Definition msg_saved : jsstring :=
  ‹"El c"› ++ [243] ++ ‹"digo QR se ha guardado en tu galer"› ++ [237] ++ ‹"a."›.
Definition msg_save_denied : jsstring :=
  ‹"No se concedieron permisos para la galer"› ++ [237] ++ ‹"a."›.

(** What the handlers do outside the state: [Alert.alert], [console.error],
    the calls to the OS services, and a rejection nobody catches. *)
Inductive effect :=
| EAlert (title message : jsstring)
| EConsoleError (label : jsstring)
| ERequestPickerPermission            (** [ImagePicker.requestMediaLibraryPermissionsAsync()] *)
| ELaunchImageLibrary                 (** [ImagePicker.launchImageLibraryAsync(...)] *)
| ERequestMediaPermission             (** [MediaLibrary.requestPermissionsAsync()] *)
| ECapture (shot : QRProps)           (** [captureRef(qrRef, ...)] of the rendered code *)
| EShare (uri : jsstring)             (** [Sharing.shareAsync(uri)] *)
| ESaveToLibrary (uri : jsstring)     (** [MediaLibrary.saveToLibraryAsync(uri)] *)
| EUnhandledRejection.

(** ** Suspended handlers *)

Inductive task :=
| PickAwaitPermission       (** line 86 *)
| PickAwaitResult           (** lines 94-97 *)
| ShareAwaitCapture         (** line 110 *)
| ShareAwaitShare           (** line 111 *)
| SaveAwaitPermission       (** line 126 *)
| SaveAwaitCapture          (** line 128 *)
| SaveAwaitWrite.           (** line 129 *)

#[export] Instance task_eq_dec : EqDecision task.
Proof. solve_decision. Defined.

(** The value an awaited promise settles with. *)
Inductive settlement :=
| Rejected                                        (** the promise rejects *)
| PermissionResponse (granted : bool)             (** ImagePicker: [{ granted }] *)
| StatusResponse (status : jsstring)              (** MediaLibrary: [{ status }] *)
| PickerResult (canceled : bool) (assetUris : list jsstring)
| CapturedUri (uri : jsstring)                    (** [captureRef] resolves to a URI *)
| Done.                                           (** [shareAsync], [saveToLibraryAsync] *)

(** A task of [handleSave] or [handleShare]. *)
Definition is_export (t : task) : bool :=
  match t with
  | PickAwaitPermission | PickAwaitResult => false
  | _ => true
  end.

(** The result of running a handler up to its next [await] or its end. *)
Abbreviation outcome := (State * list effect * option task)%type.

(** The code before the first [await] of each handler. *)
Definition handlePickLogo (s : State) : outcome :=
  (s, [ERequestPickerPermission], Some PickAwaitPermission).

Definition handleShare (p : Props) (s : State) : outcome :=
  if negb (isFormValid s) then (s, [EAlert ‹"Error"› msg_fix_fields], None)
  else (setProcessing true s, [ECapture (qrCodeProps p s)], Some ShareAwaitCapture).

Definition handleSave (s : State) : outcome :=
  if negb (isFormValid s) then (s, [EAlert ‹"Error"› msg_fix_fields], None)
  else (setProcessing true s, [ERequestMediaPermission], Some SaveAwaitPermission).

Definition share_error_label : jsstring := ‹"Error al compartir:"›.
Definition save_error_label : jsstring := ‹"Error al guardar:"›.

(** The code after an [await], given what the promise settled with; [None]
    when the value is not one the awaited call produces.  A rejection jumps
    to the [catch] and [finally] blocks of [handleShare] and [handleSave];
    [handlePickLogo] has none, so its returned promise rejects.
    [result.assets[0].uri] throws on an empty [assets]. *)
Definition resume (p : Props) (t : task) (o : settlement) (s : State) : option outcome :=
  match t, o with
  | PickAwaitPermission, PermissionResponse granted =>
      if granted then Some (s, [ELaunchImageLibrary], Some PickAwaitResult)
      else Some (s, [EAlert ‹"Permiso denegado"› msg_pick_denied], None)
  | PickAwaitResult, PickerResult canceled uris =>
      if canceled then Some (s, [], None)
      else match uris with
           | uri :: _ => Some (setLogo (Some uri) s, [], None)
           | [] => Some (s, [EUnhandledRejection], None)
           end
  | (PickAwaitPermission | PickAwaitResult), Rejected =>
      Some (s, [EUnhandledRejection], None)
  | ShareAwaitCapture, CapturedUri uri => Some (s, [EShare uri], Some ShareAwaitShare)
  | ShareAwaitShare, Done => Some (setProcessing false s, [], None)
  | (ShareAwaitCapture | ShareAwaitShare), Rejected =>
      Some (setProcessing false s, [EConsoleError share_error_label], None)
  | SaveAwaitPermission, StatusResponse status =>
      if bool_decide (status = ‹"granted"›)
      then Some (s, [ECapture (qrCodeProps p s)], Some SaveAwaitCapture)
      else Some (setProcessing false s, [EAlert ‹"Permiso denegado"› msg_save_denied], None)
  | SaveAwaitCapture, CapturedUri uri => Some (s, [ESaveToLibrary uri], Some SaveAwaitWrite)
  | SaveAwaitWrite, Done =>
      Some (setProcessing false s, [EAlert ‹"Guardado"› msg_saved], None)
  | (SaveAwaitPermission | SaveAwaitCapture | SaveAwaitWrite), Rejected =>
      Some (setProcessing false s, [EConsoleError save_error_label], None)
  | _, _ => None
  end.

(** ** The whole screen *)

Record Sys := mkSys { ui : State; tasks : list task }.

Definition init_sys (p : Props) : Sys := mkSys (init_state p) [].

Inductive action :=
| UI (ev : ui_event)
| Settle (i : nat) (o : settlement).

(** The handler a UI event calls, run up to its first [await]. *)
Definition start_handler (p : Props) (ev : ui_event) (s : State) : option outcome :=
  match ev with
  | PressPickLogo => Some (handlePickLogo s)
  | PressSave => Some (handleSave s)
  | PressShare => Some (handleShare p s)
  | _ => (λ f, (f s, [], None)) <$> sync_handler ev
  end.

(** The [i]-th suspended task is replaced by its continuation, if any. *)
Definition replace_task (i : nat) (next : option task) (ts : list task) : list task :=
  take i ts ++ option_list next ++ drop (S i) ts.

Definition sys_exec (p : Props) (a : action) (σ : Sys) : option (Sys * list effect) :=
  match a with
  | UI ev =>
      if enabled p (ui σ) ev then
        '(s', effs, next) ← start_handler p ev (ui σ);
        Some (mkSys s' (tasks σ ++ option_list next), effs)
      else None
  | Settle i o =>
      t ← tasks σ !! i;
      '(s', effs, next) ← resume p t o (ui σ);
      Some (mkSys s' (replace_task i next (tasks σ)), effs)
  end.

Fixpoint sys_run (p : Props) (acts : list action) (σ : Sys) : option (Sys * list effect) :=
  match acts with
  | [] => Some (σ, [])
  | a :: acts' =>
      '(σ1, effs1) ← sys_exec p a σ;
      '(σ2, effs2) ← sys_run p acts' σ1;
      Some (σ2, effs1 ++ effs2)
  end.

Inductive reachable (p : Props) : Sys → Prop :=
| reach_init : reachable p (init_sys p)
| reach_step σ a σ' effs :
    reachable p σ → sys_exec p a σ = Some (σ', effs) → reachable p σ'.

(** ** What each step does to [processing] and to the tasks *)

Fixpoint export_count (ts : list task) : nat :=
  match ts with
  | [] => 0
  | t :: ts' => (if is_export t then 1 else 0) + export_count ts'
  end.

Lemma export_count_app ts1 ts2 :
  export_count (ts1 ++ ts2) = (export_count ts1 + export_count ts2)%nat.
Proof. induction ts1; simpl; lia. Qed.

Lemma export_count_replace i t next ts :
  ts !! i = Some t →
  (export_count (replace_task i next ts) + (if is_export t then 1 else 0) =
   export_count ts + export_count (option_list next))%nat.
Proof.
  intros Hi. unfold replace_task.
  assert (export_count ts = export_count (take i ts ++ t :: drop (S i) ts)) as ->
    by (by rewrite take_drop_middle).
  rewrite !export_count_app. simpl. lia.
Qed.

(** The animation and its callbacks touch only [modalVisible] and
    [fadeAnim]. *)
Lemma anim_start_fields v cb s :
  let s' := anim_start v cb s in
  processing s' = processing s ∧ showQRColorPicker s' = showQRColorPicker s ∧
  showBGColorPicker s' = showBGColorPicker s.
Proof.
  unfold anim_start. destruct (anim_running (fadeAnim s)) as [[? []]|]; done.
Qed.

Lemma anim_finish_fields s :
  let s' := anim_finish s in
  processing s' = processing s ∧ showQRColorPicker s' = showQRColorPicker s ∧
  showBGColorPicker s' = showBGColorPicker s.
Proof.
  unfold anim_finish. destruct (anim_running (fadeAnim s)) as [[? []]|]; done.
Qed.

(** A synchronous handler leaves [processing] alone. *)
Lemma sync_handler_processing ev f s :
  sync_handler ev = Some f → processing (f s) = processing s.
Proof.
  destruct ev; intros [= <-]; try done.
  - apply (anim_start_fields 1 NoCallback (setModalVisible true s)).
  - apply anim_start_fields.
  - apply anim_finish_fields.
Qed.

(** The continuation of an export is an export; that of a logo pick is a
    logo pick. *)
Lemma resume_kind p t o s s' effs t' :
  resume p t o s = Some (s', effs, Some t') → is_export t' = is_export t.
Proof.
  destruct t, o; simpl; intros H; repeat case_match; by simplify_eq.
Qed.

(** An export clears [processing] when it ends and keeps it otherwise; a
    logo pick never touches it. *)
Lemma resume_processing p t o s s' effs next :
  resume p t o s = Some (s', effs, next) →
  processing s' = if is_export t && bool_decide (next = None) then false else processing s.
Proof.
  destruct t, o; simpl; intros H; repeat case_match; by simplify_eq.
Qed.

(** The finite measure that each settlement decreases. *)
Definition rank (t : task) : nat :=
  match t with
  | PickAwaitPermission => 2 | PickAwaitResult => 1
  | ShareAwaitCapture => 2 | ShareAwaitShare => 1
  | SaveAwaitPermission => 3 | SaveAwaitCapture => 2 | SaveAwaitWrite => 1
  end.

Lemma resume_rank p t o s s' effs t' :
  resume p t o s = Some (s', effs, Some t') → (rank t' < rank t)%nat.
Proof.
  destruct t, o; simpl; intros H; repeat case_match; simplify_eq; simpl; lia.
Qed.

(** Every awaited promise can reject, and the code handles it. *)
Lemma resume_rejected_defined p t s : is_Some (resume p t Rejected s).
Proof. by destruct t. Qed.

(** ** Invariants of the reachable states *)

(** A property of the first render that every action preserves holds in
    every reachable state. *)
Lemma reachable_inv p (I : Sys → Prop) :
  I (init_sys p) →
  (∀ σ a σ' effs, I σ → sys_exec p a σ = Some (σ', effs) → I σ') →
  ∀ σ, reachable p σ → I σ.
Proof. intros Hinit Hstep σ Hr. induction Hr; eauto. Qed.

Definition processing_inv (σ : Sys) : Prop :=
  export_count (tasks σ) = if processing (ui σ) then 1%nat else 0%nat.

Lemma start_handler_sync p ev f s :
  sync_handler ev = Some f → start_handler p ev s = Some (f s, [], None).
Proof. destruct ev; intros [= <-]; done. Qed.

Lemma sync_handler_None ev :
  sync_handler ev = None → ev = PressPickLogo ∨ ev = PressSave ∨ ev = PressShare.
Proof. destruct ev; naive_solver. Qed.

Lemma start_save p s :
  isFormValid s = true →
  start_handler p PressSave s =
  Some (setProcessing true s, [ERequestMediaPermission], Some SaveAwaitPermission).
Proof. intros Hv. simpl. unfold handleSave. by rewrite ?Hv. Qed.

Lemma start_share p s :
  isFormValid s = true →
  start_handler p PressShare s =
  Some (setProcessing true s, [ECapture (qrCodeProps p s)], Some ShareAwaitCapture).
Proof. intros Hv. simpl. unfold handleShare. by rewrite ?Hv. Qed.

Lemma sys_exec_processing_inv p σ a σ' effs :
  processing_inv σ → sys_exec p a σ = Some (σ', effs) → processing_inv σ'.
Proof.
  unfold processing_inv. intros Hinv Hexec. destruct a as [ev | i o]; simpl in Hexec.
  - destruct (enabled p (ui σ) ev) eqn:Hen; [|done].
    destruct (sync_handler ev) as [f|] eqn:Hsync.
    + rewrite (start_handler_sync p ev f) in Hexec by done. simplify_eq/=.
      rewrite export_count_app, (sync_handler_processing ev f) by done. simpl. lia.
    + destruct (sync_handler_None ev Hsync) as [-> | [-> | ->]].
      * simplify_eq/=. rewrite export_count_app. simpl. lia.
      * destruct (export_enabled_guard p (ui σ) PressSave) as [Hp Hv]; [by left | done |].
        rewrite (start_save p _ Hv) in Hexec. simplify_eq/=.
        by rewrite export_count_app, Hinv, Hp.
      * destruct (export_enabled_guard p (ui σ) PressShare) as [Hp Hv]; [by right | done |].
        rewrite (start_share p _ Hv) in Hexec. simplify_eq/=.
        by rewrite export_count_app, Hinv, Hp.
  - destruct (tasks σ !! i) as [t|] eqn:Hi; simplify_eq/=.
    destruct (resume p t o (ui σ)) as [[[s' effs'] next]|] eqn:Hr; simplify_eq/=.
    pose proof (export_count_replace i t next (tasks σ) Hi) as Hc.
    rewrite (resume_processing _ _ _ _ _ _ _ Hr).
    destruct next as [t'|]; simpl in Hc.
    + rewrite (resume_kind _ _ _ _ _ _ _ Hr) in Hc.
      rewrite bool_decide_eq_false_2 by done. rewrite andb_false_r.
      destruct (is_export t); lia.
    + rewrite bool_decide_eq_true_2 by done. rewrite andb_true_r.
      destruct (is_export t), (processing (ui σ)); simpl in *; lia.
Qed.

(** C3: in every reachable state of the screen at most one export
    ([handleSave] or [handleShare]) is suspended, and [processing] is [true]
    exactly while one is: it is set before the first [await] of an export
    and cleared on every way out of it. *)
Theorem processing_tracks_exports p σ :
  reachable p σ → export_count (tasks σ) = if processing (ui σ) then 1%nat else 0%nat.
Proof. apply (reachable_inv p processing_inv); [done | apply sys_exec_processing_inv]. Qed.

Lemma sys_run_reachable p acts σ σ' effs :
  reachable p σ → sys_run p acts σ = Some (σ', effs) → reachable p σ'.
Proof.
  revert σ effs. induction acts as [|a acts IH]; intros σ effs Hr Hrun; simpl in Hrun.
  - by simplify_eq.
  - destruct (sys_exec p a σ) as [[σ1 effs1]|] eqn:He; simplify_eq/=.
    destruct (sys_run p acts σ1) as [[σ2 effs2]|] eqn:Hrest; simplify_eq/=.
    eapply (IH σ1); [eapply reach_step; eauto | exact Hrest].
Qed.

(** The state a sequence of actions leads to from the first render. *)
Definition run_from_init (p : Props) (acts : list action) : Sys :=
  match sys_run p acts (init_sys p) with
  | Some (σ, _) => σ
  | None => init_sys p
  end.

Lemma run_from_init_reachable p acts : reachable p (run_from_init p acts).
Proof.
  unfold run_from_init. destruct (sys_run p acts (init_sys p)) as [[σ effs]|] eqn:E.
  - eapply sys_run_reachable; [constructor | done].
  - constructor.
Qed.

(** After opening the modal and pressing Save with the default colours. *)
Definition saving_state : Sys := run_from_init no_props [UI PressMainButton; UI PressSave].

Lemma processing_tracks_exports_witness :
  reachable no_props saving_state ∧
  export_count (tasks saving_state) = if processing (ui saving_state) then 1%nat else 0%nat.
Proof.
  split; [apply run_from_init_reachable|].
  apply (processing_tracks_exports no_props), run_from_init_reachable.
Defined.

(** ** Termination of the suspended handlers *)

(** One settlement of the task in flight: some settlement is possible (a
    rejection always is), and [next] contains every continuation. *)
Definition settle_step (p : Props) (a : option task * State * nat)
    (next : option task * State * nat → Prop) : Prop :=
  ∃ t, a.1.1 = Some t ∧ (∃ o r, resume p t o a.1.2 = Some r) ∧
    ∀ o s' effs ot, resume p t o a.1.2 = Some (s', effs, ot) → next (ot, s', S a.2).

Lemma rank_le_3 t : (rank t ≤ 3)%nat.
Proof. destruct t; simpl; lia. Qed.

Lemma rank_pos t : (0 < rank t)%nat.
Proof. destruct t; simpl; lia. Qed.

(** C4: whatever the OS answers, every suspended handler finishes after at
    most three settlements (the third component counts them), provided
    each awaited promise settles; an export finishes with [processing]
    cleared. *)
Theorem task_terminates p t s :
  runsTo (settle_step p)
    (λ a, a.1.1 = None ∧ (a.2 ≤ 3)%nat ∧ (is_export t = true → processing a.1.2 = false))
    (Some t, s, 0%nat).
Proof.
  assert (∀ n t' s' k, rank t' = n → is_export t' = is_export t → (k + rank t' ≤ 3)%nat →
    runsTo (settle_step p)
      (λ a, a.1.1 = None ∧ (a.2 ≤ 3)%nat ∧ (is_export t = true → processing a.1.2 = false))
      (Some t', s', k)) as Hgen.
  { induction n as [n IH] using lt_wf_ind. intros t' s' k Hn Hk Hb.
    apply (runsTo_step _ _ _
      (λ a, a.2 = S k ∧ ∃ o effs, resume p t' o s' = Some (a.1.2, effs, a.1.1))).
    - exists t'. split; [done|]. split.
      + destruct (resume_rejected_defined p t' s') as [r Hr]. eauto.
      + intros o s'' effs ot Hr. eauto.
    - intros [[ot s''] k'] (Hk2 & o & effs & Hr). simpl in Hk2, Hr. subst k'.
      destruct ot as [t''|].
      + pose proof (resume_kind _ _ _ _ _ _ _ Hr) as Hk'.
        pose proof (resume_rank _ _ _ _ _ _ _ Hr).
        apply (IH (rank t'')); [lia | done | congruence | lia].
      + apply runsTo_done. simpl. split; [done|]. split; [pose proof (rank_pos t'); lia|].
        intros He. rewrite (resume_processing _ _ _ _ _ _ _ Hr), Hk, He. done. }
  apply (Hgen (rank t)); [done | done | pose proof (rank_le_3 t); lia].
Qed.

(** ** The form check before an export *)

(** C2: on a form whose colours do not both pass [validateHex], the Save
    and Send buttons are disabled, and their handlers, if called, only
    alert: no permission request, no capture, no suspended task and no
    change of state. *)
Theorem invalid_form_blocks_export p s ev :
  isFormValid s = false → ev = PressSave ∨ ev = PressShare →
  enabled p s ev = false ∧
  start_handler p ev s = Some (s, [EAlert ‹"Error"› msg_fix_fields], None).
Proof.
  intros Hinv Hev. split.
  - apply not_true_is_false. intros Hen.
    destruct (export_enabled_guard p s ev Hev Hen). congruence.
  - destruct Hev as [-> | ->]; simpl; unfold handleSave, handleShare; by rewrite Hinv.
Qed.

(** A Save press on a form whose QR colour has five digits. *)
Lemma invalid_form_blocks_export_witness :
  isFormValid (init_state (mkProps None None None None (Some ‹"#12345"›) None None None)) = false ∧
  enabled (mkProps None None None None (Some ‹"#12345"›) None None None)
    (init_state (mkProps None None None None (Some ‹"#12345"›) None None None)) PressSave = false.
Proof.
  split; [vm_compute; reflexivity|].
  apply (invalid_form_blocks_export _ _ PressSave); [vm_compute; reflexivity | by left].
Defined.

(** ** The colour pickers *)

Definition pickers_exclusive (s : State) : Prop :=
  showQRColorPicker s && showBGColorPicker s = false.

Lemma sync_step_pickers p s ev f :
  enabled p s ev = true → sync_handler ev = Some f →
  pickers_exclusive s → pickers_exclusive (f s).
Proof.
  unfold pickers_exclusive. intros Hen Hf Hex.
  destruct ev; simpl in Hf; try discriminate; injection Hf as <-; try done;
    unfold openModal, closeModal in *;
    try match goal with
    | |- context [anim_start ?v ?cb ?s0] =>
        destruct (anim_start_fields v cb s0) as (_ & -> & ->)
    | |- context [anim_finish ?s0] => destruct (anim_finish_fields s0) as (_ & -> & ->)
    end; try done;
    unfold enabled, render, mainModalTouchable, covered in Hen; simpl in *;
    destruct (p_allowCustomization p), (showBGColorPicker s),
      (showQRColorPicker s), (modalVisible s); simpl in *; congruence.
Qed.

Lemma resume_pickers p t o s s' effs next :
  resume p t o s = Some (s', effs, next) →
  showQRColorPicker s' = showQRColorPicker s ∧ showBGColorPicker s' = showBGColorPicker s.
Proof. destruct t, o; simpl; intros H; repeat case_match; by simplify_eq. Qed.

Lemma sys_exec_pickers p σ a σ' effs :
  showQRColorPicker (ui σ) && showBGColorPicker (ui σ) = false →
  sys_exec p a σ = Some (σ', effs) →
  showQRColorPicker (ui σ') && showBGColorPicker (ui σ') = false.
Proof.
  intros IH Hexec.
  destruct a as [ev | i o]; simpl in Hexec.
  - destruct (enabled p (ui σ) ev) eqn:Hen; [|done].
    destruct (sync_handler ev) as [f|] eqn:Hsync.
    + rewrite (start_handler_sync p ev f) in Hexec by done. simplify_eq/=.
      by eapply sync_step_pickers.
    + destruct (sync_handler_None ev Hsync) as [-> | [-> | ->]]; simpl in Hexec;
        unfold handleSave, handleShare, handlePickLogo in Hexec;
        repeat case_match; simplify_eq/=; done.
  - destruct (tasks σ !! i) as [t|] eqn:Hi; simplify_eq/=.
    destruct (resume p t o (ui σ)) as [[[s' effs'] next]|] eqn:Hr; simplify_eq/=.
    destruct (resume_pickers _ _ _ _ _ _ _ Hr) as [-> ->]. done.
Qed.

(** C11: in every reachable state at most one colour-picker overlay is
    open: a picker can only be opened from the main modal, which an open
    picker covers. *)
Theorem pickers_mutually_exclusive p σ :
  reachable p σ → showQRColorPicker (ui σ) && showBGColorPicker (ui σ) = false.
Proof.
  apply (reachable_inv p (λ σ, showQRColorPicker (ui σ) && showBGColorPicker (ui σ) = false));
    [done | apply sys_exec_pickers].
Qed.

Lemma pickers_mutually_exclusive_witness :
  reachable no_props saving_state ∧
  showQRColorPicker (ui saving_state) && showBGColorPicker (ui saving_state) = false.
Proof.
  split; [apply run_from_init_reachable|].
  apply (pickers_mutually_exclusive no_props), run_from_init_reachable.
Defined.

(** ** Runs of the handlers *)

Lemma replace_task_last i t next ts :
  i = length ts → replace_task i next (ts ++ [t]) = ts ++ option_list next.
Proof.
  intros ->. unfold replace_task. rewrite take_app_length.
  rewrite drop_ge; [by rewrite app_nil_r | rewrite length_app; simpl; lia].
Qed.

(** Settling the task last suspended. *)
Lemma settle_last p s ts t o s' effs next :
  resume p t o s = Some (s', effs, next) →
  sys_exec p (Settle (length ts) o) (mkSys s (ts ++ [t])) =
  Some (mkSys s' (ts ++ option_list next), effs).
Proof.
  intros Hr. simpl. rewrite lookup_app_r, Nat.sub_diag by lia. simpl.
  rewrite Hr. simpl. by rewrite replace_task_last.
Qed.

Lemma sys_run_cons p a acts σ σ1 effs1 :
  sys_exec p a σ = Some (σ1, effs1) →
  sys_run p (a :: acts) σ = (λ '(σ2, effs2), (σ2, effs1 ++ effs2)) <$> sys_run p acts σ1.
Proof.
  intros He. simpl. rewrite He. simpl.
  by destruct (sys_run p acts σ1) as [[]|].
Qed.

(** Pressing an enabled button whose handler suspends. *)
Lemma press_async p s ts ev s' effs t :
  enabled p s ev = true → start_handler p ev s = Some (s', effs, Some t) →
  sys_exec p (UI ev) (mkSys s ts) = Some (mkSys s' (ts ++ [t]), effs).
Proof. intros Hen Hst. simpl. by rewrite Hen, Hst. Qed.

(** Pressing or typing into an enabled control with a synchronous handler. *)
Lemma press_sync p s ts ev f :
  enabled p s ev = true → sync_handler ev = Some f →
  sys_exec p (UI ev) (mkSys s ts) = Some (mkSys (f s) ts, []).
Proof.
  intros Hen Hf. simpl. rewrite Hen, (start_handler_sync p ev f) by done.
  simpl. by rewrite app_nil_r.
Qed.

Lemma setProcessing_true_false s :
  processing s = false → setProcessing false (setProcessing true s) = s.
Proof. intros Hp. state_eq s. Qed.

(** C7: a Save whose permission is granted and whose capture and write
    succeed issues, in this order, the permission request, the capture of
    the rendered code, the write of the captured URI and the "Guardado"
    alert, and leaves the screen and the other suspended handlers as they
    were. *)
Theorem save_success_run p σ uri :
  enabled p (ui σ) PressSave = true →
  sys_run p [UI PressSave; Settle (length (tasks σ)) (StatusResponse ‹"granted"›);
             Settle (length (tasks σ)) (CapturedUri uri); Settle (length (tasks σ)) Done] σ =
  Some (σ, [ERequestMediaPermission; ECapture (qrCodeProps p (ui σ)); ESaveToLibrary uri;
            EAlert ‹"Guardado"› msg_saved]).
Proof.
  intros Hen. destruct (export_enabled_guard p (ui σ) PressSave) as [Hp Hv]; [by left | done |].
  destruct σ as [s ts]; cbn [ui tasks] in *.
  rewrite (sys_run_cons _ _ _ _ _ _ (press_async _ _ _ _ _ _ _ Hen (start_save p s Hv))).
  rewrite (sys_run_cons _ _ _ _ _ _
    (settle_last p (setProcessing true s) ts SaveAwaitPermission
      (StatusResponse ‹"granted"›) _ _ (Some SaveAwaitCapture) eq_refl)).
  rewrite (sys_run_cons _ _ _ _ _ _
    (settle_last p (setProcessing true s) ts SaveAwaitCapture
      (CapturedUri uri) _ _ (Some SaveAwaitWrite) eq_refl)).
  rewrite (sys_run_cons _ _ _ _ _ _ (settle_last p (setProcessing true s) ts SaveAwaitWrite Done _ _ None eq_refl)).
  simpl. by rewrite app_nil_r, setProcessing_true_false.
Qed.

(** C9: a Save whose permission request answers any status but
    ["granted"] issues the request and the "Permiso denegado" alert, takes
    no capture, and leaves the screen as it was. *)
Theorem save_denied_run p σ status :
  enabled p (ui σ) PressSave = true → status ≠ ‹"granted"› →
  sys_run p [UI PressSave; Settle (length (tasks σ)) (StatusResponse status)] σ =
  Some (σ, [ERequestMediaPermission; EAlert ‹"Permiso denegado"› msg_save_denied]).
Proof.
  intros Hen Hst. destruct (export_enabled_guard p (ui σ) PressSave) as [Hp Hv]; [by left | done |].
  destruct σ as [s ts]; cbn [ui tasks] in *.
  rewrite (sys_run_cons _ _ _ _ _ _ (press_async _ _ _ _ _ _ _ Hen (start_save p s Hv))).
  assert (Hr : resume p SaveAwaitPermission (StatusResponse status) (setProcessing true s) =
    Some (setProcessing false (setProcessing true s),
          [EAlert ‹"Permiso denegado"› msg_save_denied], None))
    by (simpl; by rewrite bool_decide_eq_false_2).
  rewrite (sys_run_cons _ _ _ _ _ _ (settle_last _ _ ts _ _ _ _ _ Hr)).
  simpl. by rewrite app_nil_r, setProcessing_true_false.
Qed.

Lemma save_denied_run_witness :
  enabled no_props (ui (run_from_init no_props [UI PressMainButton])) PressSave = true ∧
  ‹"denied"› ≠ ‹"granted"› ∧
  sys_run no_props
    [UI PressSave; Settle (length (tasks (run_from_init no_props [UI PressMainButton])))
                     (StatusResponse ‹"denied"›)]
    (run_from_init no_props [UI PressMainButton]) =
  Some (run_from_init no_props [UI PressMainButton],
        [ERequestMediaPermission; EAlert ‹"Permiso denegado"› msg_save_denied]).
Proof.
  assert (Hen : enabled no_props (ui (run_from_init no_props [UI PressMainButton])) PressSave = true)
    by (vm_compute; reflexivity).
  assert (Hne : ‹"denied"› ≠ ‹"granted"›) by (vm_compute; congruence).
  split; [exact Hen|]. split; [exact Hne|].
  apply (save_denied_run no_props _ ‹"denied"› Hen Hne).
Defined.

(** C8: a Send whose capture and share succeed issues the capture of the
    rendered code at the press and the share of the captured URI, and leaves
    the screen as it was; no permission is requested. *)
Theorem share_success_run p σ uri :
  enabled p (ui σ) PressShare = true →
  sys_run p [UI PressShare; Settle (length (tasks σ)) (CapturedUri uri);
             Settle (length (tasks σ)) Done] σ =
  Some (σ, [ECapture (qrCodeProps p (ui σ)); EShare uri]).
Proof.
  intros Hen. destruct (export_enabled_guard p (ui σ) PressShare) as [Hp Hv]; [by right | done |].
  destruct σ as [s ts]; cbn [ui tasks] in *.
  rewrite (sys_run_cons _ _ _ _ _ _ (press_async _ _ _ _ _ _ _ Hen (start_share p s Hv))).
  rewrite (sys_run_cons _ _ _ _ _ _
    (settle_last p (setProcessing true s) ts ShareAwaitCapture
      (CapturedUri uri) _ _ (Some ShareAwaitShare) eq_refl)).
  rewrite (sys_run_cons _ _ _ _ _ _ (settle_last p (setProcessing true s) ts ShareAwaitShare Done _ _ None eq_refl)).
  simpl. by rewrite app_nil_r, setProcessing_true_false.
Qed.

Definition opened_state : Sys := run_from_init no_props [UI PressMainButton].

Lemma save_success_run_witness :
  enabled no_props (ui opened_state) PressSave = true ∧
  sys_run no_props [UI PressSave; Settle 0 (StatusResponse ‹"granted"›);
                    Settle 0 (CapturedUri ‹"file:qr.png"›); Settle 0 Done] opened_state =
  Some (opened_state, [ERequestMediaPermission; ECapture (qrCodeProps no_props (ui opened_state));
                       ESaveToLibrary ‹"file:qr.png"›; EAlert ‹"Guardado"› msg_saved]).
Proof.
  assert (Hen : enabled no_props (ui opened_state) PressSave = true) by (vm_compute; reflexivity).
  split; [exact Hen|]. apply (save_success_run no_props opened_state _ Hen).
Defined.

Lemma share_success_run_witness :
  enabled no_props (ui opened_state) PressShare = true ∧
  sys_run no_props [UI PressShare; Settle 0 (CapturedUri ‹"file:qr.png"›); Settle 0 Done]
    opened_state =
  Some (opened_state, [ECapture (qrCodeProps no_props (ui opened_state)); EShare ‹"file:qr.png"›]).
Proof.
  assert (Hen : enabled no_props (ui opened_state) PressShare = true) by (vm_compute; reflexivity).
  split; [exact Hen|]. apply (share_success_run no_props opened_state _ Hen).
Defined.

(** ** Interleavings *)

(** C12: [processing] disables only the two buttons: while [handleSave]
    waits for the media permission the colour fields stay editable, so an
    edit that makes the QR colour invalid, followed by the permission being
    granted, captures a QR code whose colour [validateHex] rejects. *)
Theorem save_captures_edit_made_while_waiting p σ i t :
  tasks σ !! i = Some SaveAwaitPermission →
  mainModalTouchable (render p (ui σ)) = true → p_allowCustomization p = true →
  validateHex t = false →
  ∃ σ' shot,
    sys_run p [UI (ChangeQRColorText t); Settle i (StatusResponse ‹"granted"›)] σ =
      Some (σ', [ECapture shot]) ∧
    qr_color shot = t ∧ isFormValid (ui σ') = false.
Proof.
  intros Hi Ht Hc Hv. destruct σ as [s ts]; cbn [ui tasks] in *.
  assert (Hen : enabled p s (ChangeQRColorText t) = true)
    by (unfold enabled; cbv zeta; rewrite Ht; exact Hc).
  rewrite (sys_run_cons _ _ _ _ _ _ (press_sync _ _ ts _ _ Hen eq_refl)).
  simpl. rewrite Hi. simpl. eexists _, _. split; [reflexivity|].
  unfold isFormValid. simpl. by rewrite Hv.
Qed.

Lemma save_captures_edit_made_while_waiting_witness :
  tasks saving_state !! 0%nat = Some SaveAwaitPermission ∧
  mainModalTouchable (render no_props (ui saving_state)) = true ∧
  p_allowCustomization no_props = true ∧ validateHex ‹"#12"› = false ∧
  ∃ σ' shot,
    sys_run no_props [UI (ChangeQRColorText ‹"#12"›); Settle 0 (StatusResponse ‹"granted"›)]
      saving_state = Some (σ', [ECapture shot]) ∧
    qr_color shot = ‹"#12"› ∧ isFormValid (ui σ') = false.
Proof.
  assert (H1 : tasks saving_state !! 0%nat = Some SaveAwaitPermission) by (vm_compute; reflexivity).
  assert (H2 : mainModalTouchable (render no_props (ui saving_state)) = true)
    by (vm_compute; reflexivity).
  assert (H3 : p_allowCustomization no_props = true) by reflexivity.
  assert (H4 : validateHex ‹"#12"› = false) by (vm_compute; reflexivity).
  split; [exact H1|]. split; [exact H2|]. split; [exact H3|]. split; [exact H4|].
  apply (save_captures_edit_made_while_waiting no_props saving_state 0 _ H1 H2 H3 H4).
Defined.

(** ** Picking a logo *)

(** C19: with the logo switch on, a pick whose permission is granted sets
    [logo] to the first asset's URI, or leaves it when the picker is
    cancelled; an empty asset list makes [result.assets[0].uri] throw, and
    the handler's promise rejects unhandled with the state unchanged. *)
Theorem pick_logo_run p σ canceled uris :
  enabled p (ui σ) PressPickLogo = true →
  sys_run p [UI PressPickLogo; Settle (length (tasks σ)) (PermissionResponse true);
             Settle (length (tasks σ)) (PickerResult canceled uris)] σ =
  Some (mkSys (if canceled then ui σ else
                 match uris with uri :: _ => setLogo (Some uri) (ui σ) | [] => ui σ end)
              (tasks σ),
        [ERequestPickerPermission; ELaunchImageLibrary] ++
        (if canceled then [] else match uris with _ :: _ => [] | [] => [EUnhandledRejection] end)).
Proof.
  intros Hen. destruct σ as [s ts]; cbn [ui tasks] in *.
  rewrite (sys_run_cons _ _ _ _ _ _ (press_async _ _ _ _ _ _ PickAwaitPermission Hen eq_refl)).
  rewrite (sys_run_cons _ _ _ _ _ _
    (settle_last p s ts PickAwaitPermission (PermissionResponse true) _ _ _ eq_refl)).
  assert (Hr : resume p PickAwaitResult (PickerResult canceled uris) s =
    Some (if canceled then s else match uris with uri :: _ => setLogo (Some uri) s | [] => s end,
          if canceled then [] else match uris with _ :: _ => [] | [] => [EUnhandledRejection] end,
          None)) by (simpl; destruct canceled, uris; done).
  rewrite (sys_run_cons _ _ _ _ _ _ (settle_last _ _ ts _ _ _ _ _ Hr)).
  simpl. rewrite ?app_nil_r. destruct canceled, uris; reflexivity.
Qed.

Definition logo_on_state : Sys := run_from_init no_props [UI PressMainButton; UI (ToggleLogo true)].

Lemma pick_logo_run_witness :
  enabled no_props (ui logo_on_state) PressPickLogo = true ∧
  sys_run no_props [UI PressPickLogo; Settle 0 (PermissionResponse true);
                    Settle 0 (PickerResult false [‹"file:logo.png"›])] logo_on_state =
  Some (mkSys (setLogo (Some ‹"file:logo.png"›) (ui logo_on_state)) (tasks logo_on_state),
        [ERequestPickerPermission; ELaunchImageLibrary]).
Proof.
  assert (Hen : enabled no_props (ui logo_on_state) PressPickLogo = true)
    by (vm_compute; reflexivity).
  split; [exact Hen|].
  apply (pick_logo_run no_props logo_on_state false [‹"file:logo.png"›] Hen).
Defined.

(** C22: a press of Send runs [handleShare] up to its first [await]:
    from any state where the press is accepted, it issues exactly one
    effect, the [captureRef] of the QR code rendered from that very state,
    whose colours pass the validation; [processing] is set and the share is
    suspended waiting for the capture. *)
Theorem share_captures_validated_form p σ σ' effs :
  sys_exec p (UI PressShare) σ = Some (σ', effs) →
  effs = [ECapture (qrCodeProps p (ui σ))] ∧
  validateHex (qr_color (qrCodeProps p (ui σ))) = true ∧
  validateHex (qr_backgroundColor (qrCodeProps p (ui σ))) = true ∧
  ui σ' = setProcessing true (ui σ) ∧ tasks σ' = tasks σ ++ [ShareAwaitCapture].
Proof.
  destruct σ as [s ts]. cbn [sys_exec ui tasks].
  destruct (enabled p s PressShare) eqn:Hen; [|discriminate].
  destruct (export_enabled_guard p s PressShare) as [_ Hv]; [by right | done |].
  rewrite (start_share p s Hv). intros [= <- <-].
  apply andb_prop in Hv as [Hq Hb]. done.
Qed.

Lemma share_captures_validated_form_witness :
  sys_exec no_props (UI PressShare) opened_state =
    Some (mkSys (setProcessing true (ui opened_state)) [ShareAwaitCapture],
          [ECapture (qrCodeProps no_props (ui opened_state))]) ∧
  [ECapture (qrCodeProps no_props (ui opened_state))] =
    [ECapture (qrCodeProps no_props (ui opened_state))] ∧
  validateHex (qr_color (qrCodeProps no_props (ui opened_state))) = true ∧
  validateHex (qr_backgroundColor (qrCodeProps no_props (ui opened_state))) = true ∧
  setProcessing true (ui opened_state) = setProcessing true (ui opened_state) ∧
  [ShareAwaitCapture] = tasks opened_state ++ [ShareAwaitCapture].
Proof.
  assert (H1 : sys_exec no_props (UI PressShare) opened_state =
    Some (mkSys (setProcessing true (ui opened_state)) [ShareAwaitCapture],
          [ECapture (qrCodeProps no_props (ui opened_state))])) by (vm_compute; reflexivity).
  split; [exact H1|].
  exact (share_captures_validated_form no_props _ _ _ H1).
Defined.

(** ** Returning to idle *)

(** Reject the first suspended task, [n] times. *)
Fixpoint reject_all (n : nat) : list action :=
  match n with
  | O => []
  | S n' => Settle 0 Rejected :: reject_all n'
  end.

Lemma resume_rejected_ends p t s s' effs next :
  resume p t Rejected s = Some (s', effs, next) → next = None.
Proof. destruct t; simpl; intros; by simplify_eq. Qed.

Lemma reject_all_run p s ts :
  ∃ s' effs, sys_run p (reject_all (length ts)) (mkSys s ts) = Some (mkSys s' [], effs).
Proof.
  revert s. induction ts as [|t ts IH]; intros s; [by exists s, []|].
  destruct (resume_rejected_defined p t s) as [[[s1 e1] n1] Hr].
  pose proof (resume_rejected_ends _ _ _ _ _ _ Hr) as ->.
  assert (He : sys_exec p (Settle 0 Rejected) (mkSys s (t :: ts)) = Some (mkSys s1 ts, e1))
    by (simpl; by rewrite Hr).
  destruct (IH s1) as (s' & effs & Hrun).
  exists s', (e1 ++ effs). cbn [length reject_all].
  rewrite (sys_run_cons _ _ _ _ _ _ He), Hrun. done.
Qed.

(** C23: from every reachable state the screen can return to idle: when
    the promise of every suspended handler rejects, no handler is left
    suspended and [processing] is false. *)
Theorem can_return_to_idle p σ :
  reachable p σ →
  ∃ s' effs, sys_run p (reject_all (length (tasks σ))) σ = Some (mkSys s' [], effs) ∧
             processing s' = false.
Proof.
  intros Hr. destruct σ as [s ts]. destruct (reject_all_run p s ts) as (s' & effs & Hrun).
  exists s', effs. split; [done|].
  pose proof (reachable_inv p processing_inv eq_refl (sys_exec_processing_inv p) _
                (sys_run_reachable _ _ _ _ _ Hr Hrun)) as Hinv.
  unfold processing_inv in Hinv. simpl in Hinv. by destruct (processing s').
Qed.

Lemma can_return_to_idle_witness :
  reachable no_props saving_state ∧
  ∃ s' effs, sys_run no_props (reject_all (length (tasks saving_state))) saving_state =
               Some (mkSys s' [], effs) ∧ processing s' = false.
Proof.
  assert (H : reachable no_props saving_state) by apply run_from_init_reachable.
  split; [exact H|]. exact (can_return_to_idle no_props saving_state H).
Defined.

End Actions.
