(* ===== verification/Composition.v ===== *)
(** * The render's disabled props against the handlers' guards

    The render's [disabled] prop of the export buttons (lines 299, 308) and
    the [isFormValid] guard of the handlers (lines 104-107, 120-123)
    overlap: no action of the screen ever runs the guard's alert. *)

From S2P Require Import Prelude Regex HexValidator Screen Actions.
Import Screen Actions.

Set Warnings "-clear-no-such-hyp".

Module Composition.

(** The alert of an invalid form differs from every other effect a
    handler issues. *)
Lemma fix_fields_alert_not_in effs :
  Forall (λ e, e ≠ EAlert ‹"Error"› msg_fix_fields) effs →
  EAlert ‹"Error"› msg_fix_fields ∉ effs.
Proof. intros H Hin. rewrite Forall_forall in H. exact (H _ Hin eq_refl). Qed.

(** Each effect of a concrete list differs from the alert: by constructor,
    or by the code units of the alert's title. *)
Ltac not_fix_fields :=
  repeat constructor; try discriminate; vm_compute; congruence.

(** C34: the "Por favor, corrige los errores en los campos." alert of
    [handleSave] and [handleShare] is dead code: no action of the screen,
    from any state, issues it, because the Save and Send buttons are
    disabled whenever the form is invalid, and no other code issues it. *)
Theorem fix_fields_alert_unreachable p σ a σ' effs :
  sys_exec p a σ = Some (σ', effs) → EAlert ‹"Error"› msg_fix_fields ∉ effs.
Proof.
  intros Hexec. apply fix_fields_alert_not_in.
  destruct a as [ev | i o]; simpl in Hexec.
  - destruct (enabled p (ui σ) ev) eqn:Hen; [|done].
    destruct (sync_handler ev) as [f|] eqn:Hsync.
    + rewrite (start_handler_sync p ev f) in Hexec by done. by simplify_eq/=.
    + destruct (sync_handler_None ev Hsync) as [-> | [-> | ->]].
      * simplify_eq/=. not_fix_fields.
      * destruct (export_enabled_guard p (ui σ) PressSave) as [_ Hv]; [by left | done |].
        rewrite (start_save p _ Hv) in Hexec. simplify_eq/=. not_fix_fields.
      * destruct (export_enabled_guard p (ui σ) PressShare) as [_ Hv]; [by right | done |].
        rewrite (start_share p _ Hv) in Hexec. simplify_eq/=. not_fix_fields.
  - destruct (tasks σ !! i) as [t|]; [simpl in Hexec | done].
    destruct (resume p t o (ui σ)) as [[[s' effs'] next]|] eqn:Hr; simplify_eq/=.
    destruct t, o; simpl in Hr; repeat case_match; simplify_eq/=;
      not_fix_fields.
Qed.

Lemma fix_fields_alert_unreachable_witness :
  sys_exec no_props (UI PressSave) opened_state = Some (saving_state, [ERequestMediaPermission]) ∧
  EAlert ‹"Error"› msg_fix_fields ∉ [ERequestMediaPermission].
Proof.
  assert (He : sys_exec no_props (UI PressSave) opened_state =
               Some (saving_state, [ERequestMediaPermission])) by (vm_compute; reflexivity).
  split; [exact He|].
  exact (fix_fields_alert_unreachable no_props opened_state (UI PressSave) _ _ He).
Defined.

End Composition.
