(* ===== verification/ExportSpec.v ===== *)
(** * The export workflow against the spec's export state machine

    The spec's design notes describe an export as a machine
    [idle → requesting-permission → capturing → writing → idle/error]; the
    code has no such state, only the [processing] flag and the [await]
    points of [handleSave] and [handleShare].  [phase_step] is that machine
    ([handleShare] skips the permission request; its share sheet is the
    "writing" of the shared image), [export_phase] reads the phase off the
    suspended tasks of the screen, and the theorem shows that every action
    of the screen, from a reachable state, either leaves the phase alone or
    takes one step of the machine, and that the phase is [Idle] exactly when
    [processing] is false. *)

From S2P Require Import Prelude Regex HexValidator Screen Actions.
Import Screen Actions.

Set Warnings "-clear-no-such-hyp".

Module ExportSpec.

Inductive phase := Idle | RequestingPermission | Capturing | Writing.

#[export] Instance phase_eq_dec : EqDecision phase.
Proof. solve_decision. Defined.

(** The allowed changes of phase; a failure at any phase returns to
    [Idle]. *)
Inductive phase_step : phase → phase → Prop :=
| PStartSave : phase_step Idle RequestingPermission
| PStartShare : phase_step Idle Capturing
| PGranted : phase_step RequestingPermission Capturing
| PRefused : phase_step RequestingPermission Idle
| PCaptured : phase_step Capturing Writing
| PCaptureFailed : phase_step Capturing Idle
| PWritten : phase_step Writing Idle.

(** The phase an export task is suspended in; a logo pick is not an
    export. *)
Definition task_phase (t : task) : phase :=
  match t with
  | SaveAwaitPermission => RequestingPermission
  | SaveAwaitCapture | ShareAwaitCapture => Capturing
  | SaveAwaitWrite | ShareAwaitShare => Writing
  | PickAwaitPermission | PickAwaitResult => Idle
  end.

(** The phase of the first suspended export, [Idle] when there is none. *)
Fixpoint export_phase (ts : list task) : phase :=
  match ts with
  | [] => Idle
  | t :: ts' => if is_export t then task_phase t else export_phase ts'
  end.

Definition next_phase (next : option task) : phase :=
  match next with Some t => task_phase t | None => Idle end.

(** ** Lemmas on [export_phase] *)

Lemma task_phase_export t : is_export t = true → task_phase t ≠ Idle.
Proof. by destruct t. Qed.

Lemma export_phase_Idle ts : export_phase ts = Idle ↔ export_count ts = 0%nat.
Proof.
  induction ts as [|t ts IH]; simpl; [done|].
  destruct (is_export t) eqn:E; simpl; [|done].
  split; [by intros ?%task_phase_export | lia].
Qed.

(** Tasks that are not exports do not change the phase. *)
Lemma export_phase_skip l1 m l2 :
  export_count m = 0%nat → export_phase (l1 ++ m ++ l2) = export_phase (l1 ++ l2).
Proof.
  intros Hm. induction l1 as [|t l1 IH]; simpl; [|by rewrite IH].
  induction m as [|t m IHm]; simpl in *; [done|].
  destruct (is_export t); [lia | auto].
Qed.

Lemma export_phase_prefix l1 l2 :
  export_count l1 = 0%nat → export_phase (l1 ++ l2) = export_phase l2.
Proof. intros H. by rewrite <-(app_nil_l (l1 ++ l2)), export_phase_skip. Qed.

Lemma export_phase_suffix l1 l2 :
  export_count l2 = 0%nat → export_phase (l1 ++ l2) = export_phase l1.
Proof.
  intros H. rewrite <-(app_nil_r (l1 ++ l2)), <-app_assoc, export_phase_skip by done.
  by rewrite app_nil_r.
Qed.

Lemma export_count_split i t ts :
  ts !! i = Some t →
  export_count ts = (export_count (take i ts) + export_count [t] + export_count (drop (S i) ts))%nat.
Proof.
  intros Hi. rewrite <-(take_drop_middle ts i t Hi) at 1.
  rewrite export_count_app. simpl. lia.
Qed.

(** Settling a logo pick does not change the phase. *)
Lemma export_phase_replace_pick i t next ts :
  ts !! i = Some t → is_export t = false → export_count (option_list next) = 0%nat →
  export_phase (replace_task i next ts) = export_phase ts.
Proof.
  intros Hi Ht Hn. unfold replace_task. rewrite export_phase_skip by done.
  rewrite <-(export_phase_skip _ [t] _) by (simpl; by rewrite Ht). simpl.
  by rewrite take_drop_middle.
Qed.

(** When the settled task is the one export in flight, the phase is read
    off it before and off its continuation after. *)
Lemma export_phase_replace_export i t next ts :
  ts !! i = Some t → is_export t = true → export_count ts = 1%nat →
  (∀ t', next = Some t' → is_export t' = true) →
  export_phase ts = task_phase t ∧ export_phase (replace_task i next ts) = next_phase next.
Proof.
  intros Hi Ht Hc Hn. pose proof (export_count_split i t ts Hi) as Hs.
  simpl in Hs. rewrite Ht in Hs.
  assert (export_count (take i ts) = 0%nat) as Hl by lia.
  assert (export_count (drop (S i) ts) = 0%nat) as Hr by lia.
  split.
  - rewrite <-(take_drop_middle ts i t Hi), export_phase_prefix by done. simpl. by rewrite Ht.
  - unfold replace_task. rewrite export_phase_prefix by done. destruct next as [t'|]; simpl.
    + by rewrite (Hn t' eq_refl).
    + by apply export_phase_Idle.
Qed.

(** Starting a handler appends at most one task, which is an export only
    for a Save or Share that passed validation. *)
Lemma start_handler_next p ev s s' effs next :
  start_handler p ev s = Some (s', effs, next) →
  (ev = PressSave ∧ next = Some SaveAwaitPermission) ∨
  (ev = PressShare ∧ next = Some ShareAwaitCapture) ∨
  export_count (option_list next) = 0%nat.
Proof.
  destruct ev; simpl; unfold handlePickLogo, handleSave, handleShare;
    intros; repeat case_match; simplify_eq/=; auto.
Qed.

(** A Save or a Share that starts an export finds none in flight. *)
Lemma start_export_phase p σ ev t :
  processing_inv σ → enabled p (ui σ) ev = true → ev = PressSave ∨ ev = PressShare →
  export_phase (tasks σ) = Idle ∧ export_phase (tasks σ ++ [t]) = export_phase [t].
Proof.
  unfold processing_inv. intros Hinv Hen Hev.
  destruct (export_enabled_guard p (ui σ) ev Hev Hen) as [Hp _].
  rewrite Hp in Hinv. rewrite export_phase_Idle. split; [done|].
  by apply export_phase_prefix.
Qed.

(** The export in flight is the only one. *)
Lemma export_count_one σ i t :
  processing_inv σ → tasks σ !! i = Some t → is_export t = true →
  export_count (tasks σ) = 1%nat.
Proof.
  unfold processing_inv. intros Hinv Hi Ht.
  pose proof (export_count_split i t (tasks σ) Hi) as Hs. simpl in Hs. rewrite Ht in Hs.
  destruct (processing (ui σ)); lia.
Qed.

(** C26: the screen refines the spec's export machine: from a reachable
    state every action (a UI event or the settlement of an [await]) either
    leaves the export phase unchanged or takes exactly one step of
    [idle → requesting-permission → capturing → writing → idle], with a
    return to idle on every failure; and the phase is [Idle] exactly when
    [processing] is false. *)
Theorem exports_refine_phase_machine p σ a σ' effs :
  reachable p σ → sys_exec p a σ = Some (σ', effs) →
  (export_phase (tasks σ') = export_phase (tasks σ) ∨
   phase_step (export_phase (tasks σ)) (export_phase (tasks σ'))) ∧
  (export_phase (tasks σ') = Idle ↔ processing (ui σ') = false).
Proof.
  intros Hr Hexec.
  assert (processing_inv σ) as Hinv
    by (apply (reachable_inv p processing_inv); [done | apply sys_exec_processing_inv | done]).
  pose proof (sys_exec_processing_inv p σ a σ' effs Hinv Hexec) as Hinv'.
  split; [|unfold processing_inv in Hinv'; rewrite export_phase_Idle, Hinv';
           destruct (processing (ui σ')); split; done].
  destruct a as [ev | i o]; simpl in Hexec.
  - destruct (enabled p (ui σ) ev) eqn:Hen; [|done].
    destruct (start_handler p ev (ui σ)) as [[[s' effs'] next]|] eqn:Hs; simplify_eq/=.
    destruct (start_handler_next p ev _ _ _ _ Hs) as [[-> ->] | [[-> ->] | Hn]].
    + simpl. destruct (start_export_phase p σ PressSave SaveAwaitPermission) as [-> ->]; auto.
      right. constructor.
    + simpl. destruct (start_export_phase p σ PressShare ShareAwaitCapture) as [-> ->]; auto.
      right. constructor.
    + left. by apply export_phase_suffix.
  - destruct (tasks σ !! i) as [t|] eqn:Hi; simplify_eq/=.
    destruct (resume p t o (ui σ)) as [[[s' effs'] next]|] eqn:Hres; simplify_eq/=.
    pose proof (resume_kind p t o (ui σ) s' effs) as Hk.
    destruct (is_export t) eqn:Ht.
    + destruct (export_phase_replace_export i t next (tasks σ)) as [-> ->];
        [done | done | by eapply export_count_one | intros t' ->; by rewrite (Hk _ Hres)|].
      right. destruct t, o; simpl in Hres; repeat case_match; simplify_eq/=; constructor.
    + left. apply (export_phase_replace_pick i t); [done | done |].
      destruct next as [t'|]; simpl; [by rewrite (Hk _ Hres) | done].
Qed.

Lemma exports_refine_phase_machine_witness :
  reachable no_props opened_state ∧
  sys_exec no_props (UI PressSave) opened_state = Some (saving_state, [ERequestMediaPermission]) ∧
  (export_phase (tasks saving_state) = export_phase (tasks opened_state) ∨
   phase_step (export_phase (tasks opened_state)) (export_phase (tasks saving_state))) ∧
  (export_phase (tasks saving_state) = Idle ↔ processing (ui saving_state) = false).
Proof.
  assert (reachable no_props opened_state) as Hr by apply run_from_init_reachable.
  assert (sys_exec no_props (UI PressSave) opened_state =
          Some (saving_state, [ERequestMediaPermission])) as He by (vm_compute; reflexivity).
  split; [exact Hr | split; [exact He|]].
  exact (exports_refine_phase_machine no_props opened_state (UI PressSave) _ _ Hr He).
Defined.

(** The label [console.error] gets in the [catch] of an export. *)
Definition error_label (t : task) : jsstring :=
  match t with
  | ShareAwaitCapture | ShareAwaitShare => share_error_label
  | _ => save_error_label
  end.

(** C31: every way an export ends, as the spec's error taxonomy has it: a
    rejected OS call is only logged with [console.error] (no alert), a
    media permission other than "granted" gets its own alert, and
    otherwise the export succeeded (a "Guardado" alert for Save, nothing
    for Send); in every case [processing] is cleared and the rest of the
    state is as it was. *)
Theorem export_endings p t o s s' effs :
  is_export t = true → resume p t o s = Some (s', effs, None) →
  s' = setProcessing false s ∧
  ((o = Rejected ∧ effs = [EConsoleError (error_label t)]) ∨
   (t = SaveAwaitPermission ∧ ∃ st, o = StatusResponse st ∧ st ≠ ‹"granted"› ∧
      effs = [EAlert ‹"Permiso denegado"› msg_save_denied]) ∨
   (o = Done ∧ t = SaveAwaitWrite ∧ effs = [EAlert ‹"Guardado"› msg_saved]) ∨
   (o = Done ∧ t = ShareAwaitShare ∧ effs = [])).
Proof.
  intros Ht Hr. destruct t, o; simpl in Ht, Hr; try discriminate; repeat case_match;
    simplify_eq/=; bool_to_prop; (split; [done|]); eauto 10.
Qed.

Lemma export_endings_witness :
  is_export SaveAwaitPermission = true ∧
  resume no_props SaveAwaitPermission (StatusResponse ‹"denied"›) opened =
    Some (setProcessing false opened, [EAlert ‹"Permiso denegado"› msg_save_denied], None) ∧
  setProcessing false opened = setProcessing false opened ∧
  ((StatusResponse ‹"denied"› = Rejected ∧
      [EAlert ‹"Permiso denegado"› msg_save_denied] = [EConsoleError (error_label SaveAwaitPermission)]) ∨
   (SaveAwaitPermission = SaveAwaitPermission ∧ ∃ st, StatusResponse ‹"denied"› = StatusResponse st ∧
      st ≠ ‹"granted"› ∧
      [EAlert ‹"Permiso denegado"› msg_save_denied] = [EAlert ‹"Permiso denegado"› msg_save_denied]) ∨
   (StatusResponse ‹"denied"› = Done ∧ SaveAwaitPermission = SaveAwaitWrite ∧
      [EAlert ‹"Permiso denegado"› msg_save_denied] = [EAlert ‹"Guardado"› msg_saved]) ∨
   (StatusResponse ‹"denied"› = Done ∧ SaveAwaitPermission = ShareAwaitShare ∧
      [EAlert ‹"Permiso denegado"› msg_save_denied] = [])).
Proof.
  assert (H1 : is_export SaveAwaitPermission = true) by reflexivity.
  assert (H2 : resume no_props SaveAwaitPermission (StatusResponse ‹"denied"›) opened =
    Some (setProcessing false opened, [EAlert ‹"Permiso denegado"› msg_save_denied], None))
    by (vm_compute; reflexivity).
  split; [exact H1|]. split; [exact H2|].
  exact (export_endings no_props _ _ opened _ _ H1 H2).
Defined.

End ExportSpec.
