(* ===== verification/Settlements.v ===== *)
(** * Termination of the suspended handlers as a whole

    Each settlement of an awaited promise runs a suspended handler to its
    next [await] or its end ([Actions.resume]); [rank] bounds the
    settlements a handler still waits for.  [pending] sums the ranks of all
    suspended handlers: every settlement decreases it, so without new UI
    input the screen processes at most [pending] settlements, whatever
    their order and values. *)

From S2P Require Import Prelude Regex HexValidator Screen Actions.
Import Screen Actions.

Set Warnings "-clear-no-such-hyp".

Module Settlements.

Fixpoint pending (ts : list task) : nat :=
  match ts with
  | [] => 0
  | t :: ts' => rank t + pending ts'
  end.

Definition is_settle (a : action) : bool :=
  match a with Settle _ _ => true | UI _ => false end.

Lemma pending_app ts1 ts2 : pending (ts1 ++ ts2) = (pending ts1 + pending ts2)%nat.
Proof. induction ts1; simpl; lia. Qed.

Lemma pending_replace i t next ts :
  ts !! i = Some t →
  (pending (replace_task i next ts) + rank t = pending ts + pending (option_list next))%nat.
Proof.
  intros Hi. unfold replace_task.
  assert (pending ts = pending (take i ts ++ t :: drop (S i) ts)) as ->
    by (by rewrite take_drop_middle).
  rewrite !pending_app. simpl. lia.
Qed.

(** Every settlement decreases [pending]. *)
Lemma settle_pending p i o σ σ' effs :
  sys_exec p (Settle i o) σ = Some (σ', effs) →
  (pending (tasks σ') < pending (tasks σ))%nat.
Proof.
  simpl. destruct (tasks σ !! i) as [t|] eqn:Hi; [simpl | done].
  destruct (resume p t o (ui σ)) as [[[s' effs'] next]|] eqn:Hr; [simpl | done].
  intros; simplify_eq/=. pose proof (pending_replace i t next (tasks σ) Hi) as Hp.
  destruct next as [t'|]; simpl in Hp.
  - pose proof (resume_rank _ _ _ _ _ _ _ Hr). lia.
  - pose proof (rank_pos t). lia.
Qed.

(** C28: without new UI input the screen processes at most [pending]
    settlements: a run made only of settlements, in any order and with any
    values, has at most as many steps as [pending] of the tasks it starts
    from, less what is still pending at its end. *)
Theorem settlements_bounded p acts σ σ' effs :
  Forall (λ a, is_settle a = true) acts → sys_run p acts σ = Some (σ', effs) →
  (length acts + pending (tasks σ') ≤ pending (tasks σ))%nat.
Proof.
  intros Hacts. revert σ effs. induction Hacts as [|a acts Ha _ IH]; intros σ effs Hrun;
    simpl in Hrun; [simplify_eq/=; lia|].
  destruct (sys_exec p a σ) as [[σ1 effs1]|] eqn:He; simplify_eq/=.
  destruct (sys_run p acts σ1) as [[σ2 effs2]|] eqn:Hrest; simplify_eq/=.
  destruct a as [ev | i o]; [done|].
  pose proof (settle_pending _ _ _ _ _ _ He). pose proof (IH _ _ Hrest). lia.
Qed.

Lemma settlements_bounded_witness :
  Forall (λ a, is_settle a = true)
    [Settle 0 (StatusResponse ‹"granted"›); Settle 0 (CapturedUri ‹"file:///qr.png"›)] ∧
  sys_run no_props [Settle 0 (StatusResponse ‹"granted"›); Settle 0 (CapturedUri ‹"file:///qr.png"›)]
    saving_state =
  Some (mkSys (ui saving_state) [SaveAwaitWrite],
        [ECapture (qrCodeProps no_props (ui saving_state)); ESaveToLibrary ‹"file:///qr.png"›]) ∧
  (length [Settle 0 (StatusResponse ‹"granted"›); Settle 0 (CapturedUri ‹"file:///qr.png"›)] +
   pending [SaveAwaitWrite] ≤ pending (tasks saving_state))%nat.
Proof.
  assert (H1 : Forall (λ a, is_settle a = true)
    [Settle 0 (StatusResponse ‹"granted"›); Settle 0 (CapturedUri ‹"file:///qr.png"›)])
    by (repeat constructor).
  assert (H2 : sys_run no_props [Settle 0 (StatusResponse ‹"granted"›);
                                 Settle 0 (CapturedUri ‹"file:///qr.png"›)] saving_state =
    Some (mkSys (ui saving_state) [SaveAwaitWrite],
          [ECapture (qrCodeProps no_props (ui saving_state)); ESaveToLibrary ‹"file:///qr.png"›]))
    by (vm_compute; reflexivity).
  split; [exact H1|]. split; [exact H2|].
  exact (settlements_bounded no_props _ saving_state _ _ H1 H2).
Defined.

End Settlements.
