(* ===== verification/Logo.v ===== *)
(** * The logo: its switch, the picker and the QR code

    The switch (lines 275-280) writes [includeLogo]; [handlePickLogo]
    (lines 84-101) writes [logo]; the render spreads the logo into the
    [QRCode] props only when both are truthy (lines 209-216).  Turning the
    switch off therefore hides the logo without forgetting it, and a pick
    that settles while the switch is off is kept for when it is turned back
    on. *)

From S2P Require Import Prelude Regex HexValidator Screen Actions.
Import Screen Actions.

Set Warnings "-clear-no-such-hyp".

Module Logo.

(** The switch changes nothing the render's layering reads. *)
Lemma touchable_setIncludeLogo p b s :
  mainModalTouchable (render p (setIncludeLogo b s)) = mainModalTouchable (render p s).
Proof. by destruct s. Qed.

Lemma toggle_enabled p s b :
  mainModalTouchable (render p s) = true → p_allowCustomization p = true →
  includeLogo s = negb b → enabled p s (ToggleLogo b) = true.
Proof.
  intros Ht Hc Hi. unfold enabled. cbv zeta. rewrite Ht. simpl. rewrite Hc, Hi.
  by destruct b.
Qed.

(** C29: with the logo switch on, turning it off removes the logo from the
    QR code and turning it on again gives back exactly the state before,
    the picked logo included. *)
Theorem logo_switch_roundtrip p s :
  mainModalTouchable (render p s) = true → p_allowCustomization p = true →
  includeLogo s = true →
  (∃ s1, run_sync p [ToggleLogo false] s = Some s1 ∧ qr_logo (qrCodeProps p s1) = None) ∧
  run_sync p [ToggleLogo false; ToggleLogo true] s = Some s.
Proof.
  intros Ht Hc Hi.
  assert (E1 : enabled p s (ToggleLogo false) = true)
    by (apply toggle_enabled; [done | done | by rewrite Hi]).
  assert (E2 : enabled p (setIncludeLogo false s) (ToggleLogo true) = true)
    by (apply toggle_enabled; [by rewrite touchable_setIncludeLogo | done | by destruct s]).
  cbn [run_sync]. rewrite E1. cbn [sync_handler]. rewrite E2. cbn [sync_handler].
  split; [|state_eq s].
  eexists; split; [reflexivity|]. unfold qrCodeProps. simpl. by destruct (logo s).
Qed.

(** The screen with the logo switch on, the modal open and untouched. *)
Definition logo_on : State := setIncludeLogo true opened.

Lemma logo_switch_roundtrip_witness :
  mainModalTouchable (render no_props logo_on) = true ∧ p_allowCustomization no_props = true ∧
  includeLogo logo_on = true ∧
  (∃ s1, run_sync no_props [ToggleLogo false] logo_on = Some s1 ∧
         qr_logo (qrCodeProps no_props s1) = None) ∧
  run_sync no_props [ToggleLogo false; ToggleLogo true] logo_on = Some logo_on.
Proof.
  assert (H1 : mainModalTouchable (render no_props logo_on) = true) by (vm_compute; reflexivity).
  assert (H2 : p_allowCustomization no_props = true) by reflexivity.
  assert (H3 : includeLogo logo_on = true) by reflexivity.
  split; [exact H1|]. split; [exact H2|]. split; [exact H3|].
  exact (logo_switch_roundtrip no_props logo_on H1 H2 H3).
Defined.

(** C30: a logo pick that settles while the switch is off is kept: the
    picked URI is stored without reaching the QR code, and turning the
    switch on puts it in the QR code with the logo size and background
    colour of the props. *)
Theorem pick_kept_while_switch_off p σ i uri uris :
  tasks σ !! i = Some PickAwaitResult → includeLogo (ui σ) = false →
  mainModalTouchable (render p (ui σ)) = true → p_allowCustomization p = true →
  js_truthy uri = true →
  ∃ σ1 σ2,
    sys_exec p (Settle i (PickerResult false (uri :: uris))) σ = Some (σ1, []) ∧
    qr_logo (qrCodeProps p (ui σ1)) = None ∧
    sys_exec p (UI (ToggleLogo true)) σ1 = Some (σ2, []) ∧
    qr_logo (qrCodeProps p (ui σ2)) = Some (uri, p_logoSize p, p_logoBackgroundColor p).
Proof.
  intros Hi Hoff Ht Hc Hu. destruct σ as [s ts]; cbn [ui tasks] in *.
  assert (E1 : sys_exec p (Settle i (PickerResult false (uri :: uris))) (mkSys s ts) =
               Some (mkSys (setLogo (Some uri) s) (replace_task i None ts), []))
    by (simpl; by rewrite Hi).
  assert (Hen : enabled p (setLogo (Some uri) s) (ToggleLogo true) = true)
    by (apply toggle_enabled; [by destruct s | done | by destruct s]).
  pose proof (press_sync p _ (replace_task i None ts) (ToggleLogo true) _ Hen eq_refl) as E2.
  eexists _, _. split; [exact E1|]. split; [unfold qrCodeProps; simpl; by rewrite Hoff|].
  split; [exact E2|]. unfold qrCodeProps. simpl. by rewrite Hu.
Qed.

(** The screen after a granted pick permission, the switch turned off
    while the image library is open. *)
Definition picking_switched_off : Sys :=
  run_from_init no_props [UI PressMainButton; UI (ToggleLogo true); UI PressPickLogo;
                          Settle 0 (PermissionResponse true); UI (ToggleLogo false)].

Lemma pick_kept_while_switch_off_witness :
  tasks picking_switched_off !! 0%nat = Some PickAwaitResult ∧
  includeLogo (ui picking_switched_off) = false ∧
  mainModalTouchable (render no_props (ui picking_switched_off)) = true ∧
  p_allowCustomization no_props = true ∧ js_truthy ‹"file:///logo.png"› = true ∧
  ∃ σ1 σ2,
    sys_exec no_props (Settle 0 (PickerResult false [‹"file:///logo.png"›])) picking_switched_off
      = Some (σ1, []) ∧
    qr_logo (qrCodeProps no_props (ui σ1)) = None ∧
    sys_exec no_props (UI (ToggleLogo true)) σ1 = Some (σ2, []) ∧
    qr_logo (qrCodeProps no_props (ui σ2)) =
      Some (‹"file:///logo.png"›, p_logoSize no_props, p_logoBackgroundColor no_props).
Proof.
  assert (H1 : tasks picking_switched_off !! 0%nat = Some PickAwaitResult)
    by (vm_compute; reflexivity).
  assert (H2 : includeLogo (ui picking_switched_off) = false) by (vm_compute; reflexivity).
  assert (H3 : mainModalTouchable (render no_props (ui picking_switched_off)) = true)
    by (vm_compute; reflexivity).
  assert (H4 : p_allowCustomization no_props = true) by reflexivity.
  assert (H5 : js_truthy ‹"file:///logo.png"› = true) by reflexivity.
  split; [exact H1|]. split; [exact H2|]. split; [exact H3|]. split; [exact H4|].
  split; [exact H5|].
  exact (pick_kept_while_switch_off no_props picking_switched_off 0 _ [] H1 H2 H3 H4 H5).
Defined.

(** C33: every way a logo pick ends: a refused permission gets the
    "Permiso denegado" alert, a cancelled picker does nothing, a picked
    asset becomes the logo; a rejected call or an empty [assets] array
    (where [result.assets[0].uri] throws) rejects the handler's promise
    with no handler, as the code has no [try]/[catch].  Only a picked asset
    changes the state, and only its [logo]. *)
Theorem pick_endings p t o s s' effs :
  is_export t = false → resume p t o s = Some (s', effs, None) →
  (o = PermissionResponse false ∧ s' = s ∧ effs = [EAlert ‹"Permiso denegado"› msg_pick_denied]) ∨
  (∃ uris, o = PickerResult true uris) ∧ s' = s ∧ effs = [] ∨
  (∃ uri uris, o = PickerResult false (uri :: uris) ∧ s' = setLogo (Some uri) s ∧ effs = []) ∨
  ((o = Rejected ∨ o = PickerResult false []) ∧ s' = s ∧ effs = [EUnhandledRejection]).
Proof.
  intros Ht Hr. destruct t, o; simpl in Ht, Hr; try discriminate; repeat case_match;
    simplify_eq/=; eauto 10.
Qed.

Lemma pick_endings_witness :
  is_export PickAwaitResult = false ∧
  resume no_props PickAwaitResult (PickerResult false []) opened =
    Some (opened, [EUnhandledRejection], None) ∧
  ((PickerResult false [] = PermissionResponse false ∧ opened = opened ∧
      [EUnhandledRejection] = [EAlert ‹"Permiso denegado"› msg_pick_denied]) ∨
   (∃ uris, PickerResult false [] = PickerResult true uris) ∧ opened = opened ∧
      [EUnhandledRejection] = [] ∨
   (∃ uri uris, PickerResult false [] = PickerResult false (uri :: uris) ∧
      opened = setLogo (Some uri) opened ∧ [EUnhandledRejection] = []) ∨
   ((PickerResult false [] = Rejected ∨ PickerResult false [] = PickerResult false []) ∧
      opened = opened ∧ [EUnhandledRejection] = [EUnhandledRejection])).
Proof.
  assert (H1 : is_export PickAwaitResult = false) by reflexivity.
  assert (H2 : resume no_props PickAwaitResult (PickerResult false []) opened =
    Some (opened, [EUnhandledRejection], None)) by reflexivity.
  split; [exact H1|]. split; [exact H2|].
  exact (pick_endings no_props _ _ opened _ _ H1 H2).
Defined.

End Logo.
