(* ===== verification/Invariants.v ===== *)
(** * Invariants of the screen's state over all interleavings

    [reachable_by p ok] is the set of states of the screen ([Actions.Sys])
    reached from the first render by actions that satisfy [ok]: all of them
    ([reachable]) or those that avoid one event.  Every step changes the hook state in one of five
    ways ([sys_exec_ui_shape]): a synchronous handler, nothing, setting or
    clearing [processing], or storing a picked logo; [reachable_by_ui_inv]
    turns that into an induction principle for properties of the hook
    state.  The theorems: the [fadeAnim] value stays at its two targets
    (C24), and a raised error flag of a colour field means its colour is invalid,
    on every run that does not accept a colour in that field's picker
    (C25). *)

From S2P Require Import Prelude Regex HexValidator Screen PickerSpec Actions.
Import HexValidator Screen PickerSpec Actions.

Set Warnings "-clear-no-such-hyp".

Module Invariants.

(** ** Restricted reachability *)

Inductive reachable_by (p : Props) (ok : action → Prop) : Sys → Prop :=
| reach_by_init : reachable_by p ok (init_sys p)
| reach_by_step σ a σ' effs :
    reachable_by p ok σ → ok a → sys_exec p a σ = Some (σ', effs) → reachable_by p ok σ'.

(** ** The properties *)

(** The [fadeAnim] value rests at one of the two targets the code animates
    to, and a running animation goes to 1 with no callback ([openModal]) or
    to 0 hiding the modal ([closeModal]). *)
Definition anim_ok (a : Anim) : Prop :=
  (∀ v, anim_value a = Some v → v = 0 ∨ v = 1) ∧
  (∀ v cb, anim_running a = Some (v, cb) →
           (v = 0 ∧ cb = HideModal) ∨ (v = 1 ∧ cb = NoCallback)).

(** The error flag of a colour field. *)
Definition error_flag (f : field) (s : State) : bool :=
  match f with QRField => qrColorError s | BGField => bgColorError s end.

(** ** How a step changes the hook state *)

Lemma run_callback_shape cb s : ∃ m, run_callback cb s = setModalVisible m s.
Proof. destruct cb; simpl; [exists (modalVisible s); by destruct s | by eexists]. Qed.

(** The fade touches only [modalVisible] and [fadeAnim]. *)
Lemma anim_start_shape v cb s : ∃ m a, anim_start v cb s = set_fadeAnim a (setModalVisible m s).
Proof.
  unfold anim_start. destruct (anim_running (fadeAnim s)) as [[v' cb']|].
  - destruct (run_callback_shape cb' (set_fadeAnim (mkAnim None None) s)) as [m ->].
    exists m. eexists. by destruct s.
  - exists (modalVisible s). eexists. by destruct s.
Qed.

Lemma anim_finish_shape s : ∃ m a, anim_finish s = set_fadeAnim a (setModalVisible m s).
Proof.
  unfold anim_finish. destruct (anim_running (fadeAnim s)) as [[v cb]|].
  - destruct (run_callback_shape cb (set_fadeAnim (mkAnim (Some v) None) s)) as [m ->].
    exists m. eexists. by destruct s.
  - exists (modalVisible s), (fadeAnim s). by destruct s.
Qed.

Lemma run_callback_fadeAnim cb s : fadeAnim (run_callback cb s) = fadeAnim s.
Proof. by destruct cb. Qed.

Lemma anim_start_fadeAnim v cb s :
  fadeAnim (anim_start v cb s) =
  mkAnim (match anim_running (fadeAnim s) with Some _ => None | None => anim_value (fadeAnim s) end)
    (Some (v, cb)).
Proof.
  unfold anim_start. destruct (anim_running (fadeAnim s)) as [[v' cb']|] eqn:E; [|done].
  simpl. by rewrite run_callback_fadeAnim.
Qed.

Lemma anim_finish_fadeAnim s :
  fadeAnim (anim_finish s) =
  match anim_running (fadeAnim s) with
  | Some (v, _) => mkAnim (Some v) None
  | None => fadeAnim s
  end.
Proof.
  unfold anim_finish. destruct (anim_running (fadeAnim s)) as [[v cb]|]; [|done].
  by rewrite run_callback_fadeAnim.
Qed.

(** The code a UI event or a settlement runs changes the hook state by a
    synchronous handler, or not at all, or sets [processing] (an export
    starts), clears it (an export ends), or stores the first picked asset's
    URI as the logo. *)
Lemma sys_exec_ui_shape p a σ σ' effs :
  sys_exec p a σ = Some (σ', effs) →
  (∃ ev f, a = UI ev ∧ enabled p (ui σ) ev = true ∧ sync_handler ev = Some f ∧
           ui σ' = f (ui σ)) ∨
  ui σ' = ui σ ∨ (∃ b, ui σ' = setProcessing b (ui σ)) ∨
  (∃ i uri uris, a = Settle i (PickerResult false (uri :: uris)) ∧
                 ui σ' = setLogo (Some uri) (ui σ)).
Proof.
  destruct a as [ev | i o]; simpl.
  - destruct (enabled p (ui σ) ev) eqn:Hen; [|done].
    destruct (sync_handler ev) as [f|] eqn:Hsync.
    + rewrite (start_handler_sync p ev f) by done. intros; simplify_eq/=. left; eauto 6.
    + destruct (sync_handler_None ev Hsync) as [-> | [-> | ->]]; simpl;
        unfold handlePickLogo, handleSave, handleShare; repeat case_match;
        intros; simplify_eq/=; eauto.
  - destruct (tasks σ !! i) as [t|]; [simpl | done].
    destruct (resume p t o (ui σ)) as [[[s' effs'] next]|] eqn:Hr; [simpl | done].
    intros; simplify_eq/=.
    destruct t, o; simpl in Hr; repeat case_match; simplify_eq/=; eauto 10.
Qed.

Section UiInvariant.
Context (p : Props) (ok : action → Prop) (I : State → Prop).
Hypothesis I_init : I (init_state p).
Hypothesis I_sync : ∀ ev f s,
  ok (UI ev) → enabled p s ev = true → sync_handler ev = Some f → I s → I (f s).
Hypothesis I_processing : ∀ b s, I s → I (setProcessing b s).
Hypothesis I_logo : ∀ i uri uris s,
  ok (Settle i (PickerResult false (uri :: uris))) → I s → I (setLogo (Some uri) s).

(** A property of the hook state that holds at the first render and is
    kept by the five kinds of change holds in every state reached. *)
Lemma reachable_by_ui_inv σ : reachable_by p ok σ → I (ui σ).
Proof.
  induction 1 as [|σ a σ' effs _ IH Hok Hexec]; [done|].
  destruct (sys_exec_ui_shape p a σ σ' effs Hexec)
    as [(ev & f & -> & Hen & Hf & ->) | [-> | [[b ->] | (i & uri & uris & -> & ->)]]]; eauto.
Qed.
End UiInvariant.

Lemma reachable_by_true p σ : reachable p σ → reachable_by p (λ _, True) σ.
Proof. induction 1; econstructor; eauto. Qed.

Lemma sys_run_reachable_by p ok acts σ σ' effs :
  reachable_by p ok σ → Forall ok acts → sys_run p acts σ = Some (σ', effs) →
  reachable_by p ok σ'.
Proof.
  intros Hr Hacts. revert σ effs Hr. induction Hacts as [|a acts Ha _ IH]; intros σ effs Hr Hrun;
    simpl in Hrun; [by simplify_eq|].
  destruct (sys_exec p a σ) as [[σ1 effs1]|] eqn:He; simplify_eq/=.
  destruct (sys_run p acts σ1) as [[σ2 effs2]|] eqn:Hrest; simplify_eq/=.
  eapply IH; [econstructor; eauto | exact Hrest].
Qed.

Lemma run_from_init_reachable_by p ok acts :
  Forall ok acts → reachable_by p ok (run_from_init p acts).
Proof.
  intros Hacts. unfold run_from_init.
  destruct (sys_run p acts (init_sys p)) as [[σ effs]|] eqn:E; [|constructor].
  eapply sys_run_reachable_by; [constructor | done | exact E].
Qed.

(** Rewrites each fade of the goal into its shape. *)
Ltac anim_shape :=
  repeat match goal with
  | |- context [anim_start ?v ?cb ?s] =>
      let m := fresh "m" in let a := fresh "a" in let E := fresh "E" in
      destruct (anim_start_shape v cb s) as (m & a & E); rewrite E; clear E
  | |- context [anim_finish ?s] =>
      let m := fresh "m" in let a := fresh "a" in let E := fresh "E" in
      destruct (anim_finish_shape s) as (m & a & E); rewrite E; clear E
  end.

(** ** The theorems *)

(** C24: in every reachable state the [Animated] value of the modal's fade
    rests only at 0 or 1 (the opacity stays within [0, 1]), and a running
    fade goes to 1 without a callback (opening) or to 0 with the callback
    that hides the modal (closing). *)
Theorem fadeAnim_bounds p σ : reachable p σ → anim_ok (fadeAnim (ui σ)).
Proof.
  intros Hr. apply (reachable_by_ui_inv p (λ _, True)); [| | | | by apply reachable_by_true].
  - split; simpl; [intros v [= <-]; by left | done].
  - intros ev f s _ _ Hf [Hv Hrun]. destruct ev; simpl in Hf; simplify_eq;
      try (destruct s; split; assumption);
      unfold openModal, closeModal;
      rewrite ?anim_start_fadeAnim, ?anim_finish_fadeAnim; simpl.
    + split; simpl; [|intros v cb [= <- <-]; by right].
      destruct (anim_running (fadeAnim s)); [done | apply Hv].
    + split; simpl; [|intros v cb [= <- <-]; by left].
      destruct (anim_running (fadeAnim s)); [done | apply Hv].
    + destruct (anim_running (fadeAnim s)) as [[v cb]|] eqn:E; [|split; [exact Hv | rewrite E; by intros ??]].
      split; simpl; [|done]. intros v' [= <-].
      by destruct (Hrun v cb eq_refl) as [[-> _] | [-> _]]; [left | right].
  - intros b s. by destruct s.
  - intros i uri uris s _. by destruct s.
Qed.

Lemma fadeAnim_bounds_witness :
  reachable no_props opened_state ∧ anim_ok (fadeAnim (ui opened_state)).
Proof.
  assert (reachable no_props opened_state) as Hr by apply run_from_init_reachable.
  split; [exact Hr | exact (fadeAnim_bounds no_props opened_state Hr)].
Defined.

(** C25: on every run that does not accept a colour in a field's picker, a
    raised error flag of that field means its committed colour is invalid:
    the text field's [onChangeText] and [onBlur] keep the flag in step with
    [validateHex], and no other handler but the picker's Accept writes the
    colour (C13 shows that Accept leaves the flag stale). *)
Theorem error_flag_sound p f σ :
  reachable_by p (λ a, a ≠ UI (picker_event f Confirm)) σ →
  error_flag f (ui σ) = true → validateHex (committed f (ui σ)) = false.
Proof.
  intros Hr. apply (reachable_by_ui_inv p (λ a, a ≠ UI (picker_event f Confirm)) (λ s, error_flag f s = true →
                                                   validateHex (committed f s) = false));
    [| | | | exact Hr].
  - by destruct f.
  - intros ev g s Hok _ Hg Hs. destruct ev; simpl in Hg; simplify_eq;
      unfold openModal, closeModal, onChangeQRColorText, onBlurQRColor,
        onChangeBGColorText, onBlurBGColor, openQRColorModal, closeQRColorModal,
        confirmQRColor, openBGColorModal, closeBGColorModal, confirmBGColor;
      anim_shape; destruct f; simpl in Hok; try congruence;
      destruct s; simpl in *; try done;
      match goal with |- context [validateHex ?t] => by destruct (validateHex t) end.
  - intros b s. by destruct s, f.
  - intros i uri uris s _. by destruct s, f.
Qed.

(** After opening the modal, typing an invalid QR colour. *)
Definition invalid_qr_state : Sys :=
  run_from_init no_props [UI PressMainButton; UI (ChangeQRColorText ‹"#12"›)].

Lemma error_flag_sound_witness :
  reachable_by no_props (λ a, a ≠ UI (picker_event QRField Confirm)) invalid_qr_state ∧
  error_flag QRField (ui invalid_qr_state) = true ∧
  validateHex (committed QRField (ui invalid_qr_state)) = false.
Proof.
  assert (reachable_by no_props (λ a, a ≠ UI (picker_event QRField Confirm)) invalid_qr_state)
    as Hr by (apply run_from_init_reachable_by; repeat constructor; discriminate).
  assert (error_flag QRField (ui invalid_qr_state) = true) as He by (vm_compute; reflexivity).
  split; [exact Hr | split; [exact He | exact (error_flag_sound no_props QRField _ Hr He)]].
Defined.

End Invariants.
