(* ===== verification/Races.v ===== *)
(** * Interleavings of the main modal with a suspended export

    [processing] disables only the Save and Send buttons (lines 299, 308):
    the modal's close icon (lines 196-200) and the back button
    ([onRequestClose], line 190) stay enabled while [handleSave] is
    suspended.  When the fade-out ends, [setModalVisible(false)] hides the
    [Modal], which unmounts the view [qrRef] points to (line 204); the
    export then reaches [captureRef(qrRef, ...)] (line 128) with no view to
    capture.  C27 exhibits that run from any state where a Save waits for
    its permission and the modal is on top.  The logo button is not
    disabled by [processing] either: a logo pick can settle before or after
    the Save's permission, and C35 shows that both orders reach the same
    state while the captured image has the new logo only in one of them. *)

From S2P Require Import Prelude Regex HexValidator Screen Actions Invariants.
Import Screen Actions Invariants.

Set Warnings "-clear-no-such-hyp".

Module Races.

(** After [closeModal] the fade-out is running, and its end hides the
    modal. *)
Lemma close_modal_fade p s :
  enabled p (closeModal s) FadeAnimationEnd = true ∧
  modalVisible (anim_finish (closeModal s)) = false.
Proof.
  pose proof (anim_start_fadeAnim 0 HideModal s) as E. unfold closeModal.
  split.
  - unfold enabled. by rewrite E.
  - unfold anim_finish. rewrite E. simpl. by destruct (anim_start 0 HideModal s).
Qed.

Lemma replace_task_lookup_same i t ts :
  (i < length ts)%nat → replace_task i (Some t) ts !! i = Some t.
Proof.
  intros Hi. unfold replace_task. rewrite lookup_app_r; rewrite length_take; [|lia].
  rewrite Nat.min_l, Nat.sub_diag by lia. done.
Qed.

(** C27: closing the modal is not blocked by an export in flight: from a
    state where a Save waits for the media permission and the main modal
    is on top, closing it, letting the fade-out end and then granting the
    permission makes [handleSave] call [captureRef] while the modal (and
    the QR view the capture targets) is hidden, and the Save goes on to
    wait for that capture. *)
Theorem capture_after_modal_hidden p σ i :
  tasks σ !! i = Some SaveAwaitPermission →
  mainModalTouchable (render p (ui σ)) = true →
  ∃ σ' shot,
    sys_run p [UI CloseMainModal; UI FadeAnimationEnd; Settle i (StatusResponse ‹"granted"›)] σ
      = Some (σ', [ECapture shot]) ∧
    modalVisible (ui σ') = false ∧ tasks σ' !! i = Some SaveAwaitCapture.
Proof.
  intros Hi Ht. destruct σ as [s ts]; cbn [ui tasks] in *.
  destruct (close_modal_fade p s) as [Hen Hhid].
  rewrite (sys_run_cons _ _ _ _ _ _ (press_sync p s ts CloseMainModal closeModal Ht eq_refl)).
  rewrite (sys_run_cons _ _ _ _ _ _ (press_sync p _ ts FadeAnimationEnd anim_finish Hen eq_refl)).
  simpl. rewrite Hi. simpl. eexists _, _. split; [reflexivity|]. simpl.
  split; [exact Hhid|]. apply replace_task_lookup_same. by apply lookup_lt_Some in Hi.
Qed.

Lemma capture_after_modal_hidden_witness :
  tasks saving_state !! 0%nat = Some SaveAwaitPermission ∧
  mainModalTouchable (render no_props (ui saving_state)) = true ∧
  ∃ σ' shot,
    sys_run no_props [UI CloseMainModal; UI FadeAnimationEnd;
                      Settle 0 (StatusResponse ‹"granted"›)] saving_state
      = Some (σ', [ECapture shot]) ∧
    modalVisible (ui σ') = false ∧ tasks σ' !! 0%nat = Some SaveAwaitCapture.
Proof.
  assert (H1 : tasks saving_state !! 0%nat = Some SaveAwaitPermission) by (vm_compute; reflexivity).
  assert (H2 : mainModalTouchable (render no_props (ui saving_state)) = true)
    by (vm_compute; reflexivity).
  split; [exact H1|]. split; [exact H2|].
  exact (capture_after_modal_hidden no_props saving_state 0 H1 H2).
Defined.

(** Settling a task behind a prefix of other suspended tasks. *)
Lemma replace_task_app i next ts l :
  replace_task (length ts + i) next (ts ++ l) = ts ++ replace_task i next l.
Proof.
  unfold replace_task. rewrite take_app_add, <-Nat.add_succ_r, drop_app_add.
  by rewrite <-!app_assoc.
Qed.

Lemma settle_app p s ts l i t o s' effs next :
  l !! i = Some t → resume p t o s = Some (s', effs, next) →
  sys_exec p (Settle (length ts + i) o) (mkSys s (ts ++ l)) =
  Some (mkSys s' (ts ++ replace_task i next l), effs).
Proof.
  intros Hl Hr. simpl. rewrite lookup_app_r, Nat.add_sub' by lia. rewrite Hl. simpl.
  rewrite Hr. simpl. by rewrite replace_task_app.
Qed.

(** A picked URI that is not already the logo changes the QR code. *)
Lemma qr_logo_changed p s uri :
  includeLogo s = true → js_truthy uri = true → logo s ≠ Some uri →
  qr_logo (qrCodeProps p (setLogo (Some uri) s)) = Some (uri, p_logoSize p, p_logoBackgroundColor p) ∧
  qr_logo (qrCodeProps p s) ≠ Some (uri, p_logoSize p, p_logoBackgroundColor p).
Proof.
  intros Hi Hu Hl. unfold qrCodeProps. simpl. rewrite Hi, Hu. split; [done|].
  destruct (logo s) as [u|]; simpl; [|done].
  destruct (js_truthy u); simpl; [intros [= ->]; by apply Hl | done].
Qed.

(** C35: the order in which a logo pick and a Save's permission settle
    does not change where the screen ends, but changes what is captured.
    Behind any other suspended handlers, with the logo switch on and a
    picked URI that is not already the logo: in both orders the URI
    becomes the logo and the Save then waits for its capture, but the
    captured image carries the picked logo when the pick settled first and
    does not when the permission settled first. *)
Theorem settlement_order_changes_capture p s ts uri :
  includeLogo s = true → js_truthy uri = true → logo s ≠ Some uri →
  sys_run p [Settle (length ts + 1) (PickerResult false [uri]);
             Settle (length ts + 0) (StatusResponse ‹"granted"›)]
    (mkSys s (ts ++ [SaveAwaitPermission; PickAwaitResult])) =
    Some (mkSys (setLogo (Some uri) s) (ts ++ [SaveAwaitCapture]),
          [ECapture (qrCodeProps p (setLogo (Some uri) s))]) ∧
  sys_run p [Settle (length ts + 0) (StatusResponse ‹"granted"›);
             Settle (length ts + 1) (PickerResult false [uri])]
    (mkSys s (ts ++ [SaveAwaitPermission; PickAwaitResult])) =
    Some (mkSys (setLogo (Some uri) s) (ts ++ [SaveAwaitCapture]),
          [ECapture (qrCodeProps p s)]) ∧
  qr_logo (qrCodeProps p (setLogo (Some uri) s)) = Some (uri, p_logoSize p, p_logoBackgroundColor p) ∧
  qr_logo (qrCodeProps p s) ≠ Some (uri, p_logoSize p, p_logoBackgroundColor p).
Proof.
  intros Hi Hu Hl. split; [|split]; [| | by apply qr_logo_changed].
  - rewrite (sys_run_cons _ _ _ _ _ _ (settle_app p s ts [SaveAwaitPermission; PickAwaitResult]
               1 PickAwaitResult (PickerResult false [uri]) (setLogo (Some uri) s) [] None
               eq_refl eq_refl)).
    change (replace_task 1 None [SaveAwaitPermission; PickAwaitResult])
      with [SaveAwaitPermission].
    rewrite (sys_run_cons _ _ _ _ _ _ (settle_app p (setLogo (Some uri) s) ts [SaveAwaitPermission]
               0 SaveAwaitPermission (StatusResponse ‹"granted"›) (setLogo (Some uri) s)
               [ECapture (qrCodeProps p (setLogo (Some uri) s))] (Some SaveAwaitCapture)
               eq_refl eq_refl)).
    done.
  - rewrite (sys_run_cons _ _ _ _ _ _ (settle_app p s ts [SaveAwaitPermission; PickAwaitResult]
               0 SaveAwaitPermission (StatusResponse ‹"granted"›) s [ECapture (qrCodeProps p s)]
               (Some SaveAwaitCapture) eq_refl eq_refl)).
    change (replace_task 0 (Some SaveAwaitCapture) [SaveAwaitPermission; PickAwaitResult])
      with [SaveAwaitCapture; PickAwaitResult].
    rewrite (sys_run_cons _ _ _ _ _ _ (settle_app p s ts [SaveAwaitCapture; PickAwaitResult]
               1 PickAwaitResult (PickerResult false [uri]) (setLogo (Some uri) s) [] None
               eq_refl eq_refl)).
    done.
Qed.

(** The screen with the logo switch on, a Save waiting for its permission
    and a logo pick waiting for the image library. *)
Definition save_and_pick : Sys :=
  run_from_init no_props [UI PressMainButton; UI (ToggleLogo true); UI PressSave;
                          UI PressPickLogo; Settle 1 (PermissionResponse true)].

Lemma settlement_order_changes_capture_witness :
  tasks save_and_pick = @nil task ++ [SaveAwaitPermission; PickAwaitResult] ∧
  includeLogo (ui save_and_pick) = true ∧ js_truthy ‹"file:///logo.png"› = true ∧
  logo (ui save_and_pick) ≠ Some ‹"file:///logo.png"› ∧
  sys_run no_props [Settle (length (@nil task) + 1) (PickerResult false [‹"file:///logo.png"›]);
                    Settle (length (@nil task) + 0) (StatusResponse ‹"granted"›)]
    (mkSys (ui save_and_pick) (@nil task ++ [SaveAwaitPermission; PickAwaitResult])) =
    Some (mkSys (setLogo (Some ‹"file:///logo.png"›) (ui save_and_pick)) (@nil task ++ [SaveAwaitCapture]),
          [ECapture (qrCodeProps no_props (setLogo (Some ‹"file:///logo.png"›) (ui save_and_pick)))]) ∧
  sys_run no_props [Settle (length (@nil task) + 0) (StatusResponse ‹"granted"›);
                    Settle (length (@nil task) + 1) (PickerResult false [‹"file:///logo.png"›])]
    (mkSys (ui save_and_pick) (@nil task ++ [SaveAwaitPermission; PickAwaitResult])) =
    Some (mkSys (setLogo (Some ‹"file:///logo.png"›) (ui save_and_pick)) (@nil task ++ [SaveAwaitCapture]),
          [ECapture (qrCodeProps no_props (ui save_and_pick))]) ∧
  qr_logo (qrCodeProps no_props (setLogo (Some ‹"file:///logo.png"›) (ui save_and_pick))) =
    Some (‹"file:///logo.png"›, p_logoSize no_props, p_logoBackgroundColor no_props) ∧
  qr_logo (qrCodeProps no_props (ui save_and_pick)) ≠
    Some (‹"file:///logo.png"›, p_logoSize no_props, p_logoBackgroundColor no_props).
Proof.
  assert (H0 : tasks save_and_pick = @nil task ++ [SaveAwaitPermission; PickAwaitResult])
    by (vm_compute; reflexivity).
  assert (H1 : includeLogo (ui save_and_pick) = true) by (vm_compute; reflexivity).
  assert (H2 : js_truthy ‹"file:///logo.png"› = true) by reflexivity.
  assert (H3 : logo (ui save_and_pick) ≠ Some ‹"file:///logo.png"›) by (vm_compute; congruence).
  split; [exact H0|]. split; [exact H1|]. split; [exact H2|]. split; [exact H3|].
  exact (settlement_order_changes_capture no_props (ui save_and_pick) (@nil task) _ H1 H2 H3).
Defined.

End Races.
