(* ===== verification/Styles.v ===== *)
(** * Styles: the style sheets and the style arrays of the render

    [styles] is the object given to [StyleSheet.create] at the end of
    AdvancedQRGenerator.js (lines 396-490), [app_styles] that of App.js
    (lines 26-32).  A JavaScript object literal is evaluated member by
    member ([obj]): a [key: value] member defines or overrides a key, a
    [...source] member copies the source's own properties over the ones
    defined so far; [StyleSheet.create] returns its argument.  A style
    array [style={[a, b]}] is flattened by React Native with later entries
    overriding earlier ones ([flatten]).  The file holds data only: the
    layout these styles drive is library behaviour and is not modelled, so
    no property is stated of it. *)

From S2P Require Import Prelude.
From stdpp Require Import gmap.

Module Styles.

(** ** Objects and style values *)

(** A style property's value: a number, or a string (a colour, a
    percentage or a keyword). *)
Inductive sval :=
| SNum (n : Z)
| SStr (s : jsstring).

#[export] Instance sval_eq_dec : EqDecision sval.
Proof. solve_decision. Defined.

Abbreviation style := (gmap string sval).

(** A member of an object literal. *)
Inductive member (V : Type) :=
| Field (k : string) (v : V)
| Spread (o : gmap string V).
Arguments Field {V} k%_string v.
Arguments Spread {V} o.

Definition add_member {V} (m : gmap string V) (d : member V) : gmap string V :=
  match d with
  | Field k v => <[k := v]> m
  | Spread o => o ∪ m
  end.

(** An object literal, evaluated left to right. *)
Definition obj {V} (ms : list (member V)) : gmap string V := foldl add_member ∅ ms.

(** [StyleSheet.flatten] of a style array: later entries win. *)
Definition flatten (l : list style) : style := foldl (λ m s, s ∪ m) ∅ l.

(** ** The style sheets *)

(** Line 396. *)
Definition commonFlex : style := obj [Field "flex" (SNum 1)].

(** Lines 398-490. *)
Definition styles : gmap string style := obj [
  Field "container" (obj [
    Field "alignItems" (SStr ‹"center"›);
    Field "justifyContent" (SStr ‹"center"›)]);
  Field "mainButton" (obj [Field "marginVertical" (SNum 10)]);
  Field "modalOverlay" (obj [
    Field "flex" (SNum 1);
    Field "backgroundColor" (SStr ‹"rgba(0,0,0,0.4)"›);
    Field "justifyContent" (SStr ‹"center"›)]);
  Field "modalContainer" (obj [
    Field "borderRadius" (SNum 12);
    Field "marginHorizontal" (SNum 20);
    Field "paddingHorizontal" (SNum 20);
    Field "backgroundColor" (SStr ‹"#fff"›)]);
  Field "closeIcon" (obj [
    Field "top" (SNum 10);
    Field "right" (SNum 10);
    Field "zIndex" (SNum 10);
    Field "position" (SStr ‹"absolute"›)]);
  Field "scrollContainer" (obj [
    Field "paddingTop" (SNum 55);
    Field "paddingBottom" (SNum 10);
    Field "alignItems" (SStr ‹"center"›)]);
  Field "row" (obj [
    Field "marginVertical" (SNum 10);
    Field "flexDirection" (SStr ‹"row"›);
    Field "alignItems" (SStr ‹"center"›)]);
  Field "qrRow" (obj [Field "justifyContent" (SStr ‹"center"›)]);
  Field "input" (obj [Spread commonFlex]);
  Field "colorCircle" (obj [
    Field "width" (SNum 40);
    Field "height" (SNum 40);
    Field "borderWidth" (SNum 1);
    Field "marginRight" (SNum 10);
    Field "borderRadius" (SNum 20);
    Field "borderColor" (SStr ‹"#ccc"›)]);
  Field "inputColor" (obj [Spread commonFlex]);
  Field "flex1" (obj [Spread commonFlex]);
  Field "actionButton" (obj [Spread commonFlex; Field "marginHorizontal" (SNum 5)]);
  Field "colorPickerModalOverlay" (obj [
    Field "flex" (SNum 1);
    Field "padding" (SNum 20);
    Field "alignItems" (SStr ‹"center"›);
    Field "justifyContent" (SStr ‹"center"›);
    Field "backgroundColor" (SStr ‹"rgba(0,0,0,0.4)"›)]);
  Field "colorPickerModal" (obj [
    Field "height" (SNum 500);
    Field "padding" (SNum 20);
    Field "width" (SStr ‹"90%"›);
    Field "borderRadius" (SNum 12);
    Field "position" (SStr ‹"relative"›);
    Field "backgroundColor" (SStr ‹"#fff"›)]);
  Field "modalCloseIcon" (obj [
    Field "right" (SNum 0);
    Field "position" (SStr ‹"absolute"›)]);
  Field "picker" (obj [
    Spread commonFlex;
    Field "width" (SStr ‹"100%"›);
    Field "marginTop" (SNum 30)]);
  Field "hueSlider" (obj [Field "marginTop" (SNum 20)]);
  Field "colorModalActions" (obj [
    Field "marginTop" (SNum 20);
    Field "flexDirection" (SStr ‹"row"›);
    Field "justifyContent" (SStr ‹"flex-end"›)])].

(** App.js, lines 26-32. *)
Definition app_styles : gmap string style := obj [
  Field "container" (obj [
    Field "flex" (SNum 1);
    Field "justifyContent" (SStr ‹"center"›);
    Field "backgroundColor" (SStr ‹"#eef2f5"›)])].

(** [styles.k]; an absent key is [undefined], which styles nothing. *)
Definition style_of (k : string) : style := default ∅ (styles !! k).

(** Lines 236 and 256: [style={[styles.colorCircle, { backgroundColor: c }]}]. *)
Definition colorCircleStyle (c : jsstring) : style :=
  flatten [style_of "colorCircle"; obj [Field "backgroundColor" (SStr c)]].

(** Lines 297 and 306: [style={[styles.actionButton, { backgroundColor: c }]}]. *)
Definition actionButtonStyle (c : jsstring) : style :=
  flatten [style_of "actionButton"; obj [Field "backgroundColor" (SStr c)]].

End Styles.
