(* ===== verification/App.v ===== *)
(** * The application root

    [App] (App.js, lines 7-23) mounts [AdvancedQRGenerator] with a props
    object.  The component destructures ten named props (AdvancedQRGenerator.js,
    lines 25-36) and ignores every other key.  [app_element_props] is the
    object of lines 12-18, [props_of] the destructuring; [App] passes
    [defaultLink], a key the component does not read. *)

From S2P Require Import Prelude Regex HexValidator Screen Actions Styles.
From stdpp Require Import gmap.
Import Screen Actions Styles.

Module App.

(** The JSX attribute values of App.js: strings, booleans, numbers and
    style objects. *)
Inductive propval :=
| PString (s : jsstring)
| PBool (b : bool)
| PNumber (z : Z)
| PStyle (st : style).

(** Lines 12-18. *)
Definition app_element_props : gmap string propval :=
  <["allowCustomization"%string := PBool true]>
  (<["mainButtonText"%string := PString ‹"Abrir QR"›]>
  (<["defaultLink"%string := PString ‹"https://ejemplo.com"›]>
  (<["mainButtonLabelStyle"%string := PStyle (obj [Field "color" (SStr ‹"white"›)])]>
  {["mainButtonStyle"%string := PStyle (obj [Field "backgroundColor" (SStr ‹"#6200EE"›)])]}))).

(** The element tree [App] returns (lines 7-23). *)
Inductive element :=
| GestureHandlerRootView (st : style) (child : element)
| PaperProvider (child : element)
| SafeAreaView (st : style) (child : element)
| AdvancedQRGenerator (props : gmap string propval).

Definition App : element :=
  GestureHandlerRootView (obj [Field "flex" (SNum 1)])
    (PaperProvider
       (SafeAreaView (default ∅ (app_styles !! "container"%string))
          (AdvancedQRGenerator app_element_props))).

(** The props object of the screen an element tree mounts. *)
Fixpoint screen_props (e : element) : option (gmap string propval) :=
  match e with
  | GestureHandlerRootView _ c | PaperProvider c | SafeAreaView _ c => screen_props c
  | AdvancedQRGenerator o => Some o
  end.

(** A destructured prop: [Some None] when the key is absent ([undefined]),
    [Some (Some v)] for a value of the prop's type, [None] for a value of
    another type, which the model does not give a meaning. *)
Definition str_prop (o : gmap string propval) (k : string) : option (option jsstring) :=
  match o !! k with
  | None => Some None
  | Some (PString s) => Some (Some s)
  | Some _ => None
  end.

Definition bool_prop (o : gmap string propval) (k : string) : option (option bool) :=
  match o !! k with
  | None => Some None
  | Some (PBool b) => Some (Some b)
  | Some _ => None
  end.

Definition num_prop (o : gmap string propval) (k : string) : option (option Z) :=
  match o !! k with
  | None => Some None
  | Some (PNumber z) => Some (Some z)
  | Some _ => None
  end.

Definition style_prop (o : gmap string propval) (k : string) : option (option style) :=
  match o !! k with
  | None => Some None
  | Some (PStyle st) => Some (Some st)
  | Some _ => None
  end.

(** Line 176: [style={[styles.mainButton, mainButtonStyle]}]; an
    [undefined] entry of a style array styles nothing. *)
Definition mainButtonStyleOf (o : gmap string propval) : option style :=
  ms ← style_prop o "mainButtonStyle";
  Some (flatten [style_of "mainButton"; default ∅ ms]).

(** The destructuring of lines 25-36; [mainButtonStyle] and
    [mainButtonLabelStyle] only style the main button. *)
Definition props_of (o : gmap string propval) : option Props :=
  mt ← str_prop o "mainButtonText";
  dl ← str_prop o "defaultLogo";
  sz ← num_prop o "defaultLogoSize";
  ac ← bool_prop o "allowCustomization";
  qc ← str_prop o "defaultQRColor";
  bc ← str_prop o "defaultBGColor";
  dc ← str_prop o "defaultContent";
  lb ← str_prop o "defaultLogoBackgroundColor";
  Some (mkProps mt dl sz ac qc bc dc lb).

(** The destructuring never reads [defaultLink]. *)
Lemma props_of_defaultLink o v :
  props_of (<["defaultLink"%string := v]> o) = props_of o.
Proof.
  unfold props_of, str_prop, bool_prop, num_prop.
  by rewrite !lookup_insert_ne by done.
Qed.

(** C15: the initial content of the screen App mounts is the component's
    default ["https://ejemplo.com"] whatever value App gives [defaultLink]:
    the component's prop is named [defaultContent]. *)
Theorem app_defaultLink_ignored v :
  ∃ p, props_of (<["defaultLink"%string := v]> app_element_props) = Some p ∧
       content (init_state p) = ‹"https://ejemplo.com"› ∧
       mainButtonLabel p = ‹"Abrir QR"›.
Proof.
  rewrite props_of_defaultLink.
  eexists. split; [vm_compute; reflexivity|]. split; reflexivity.
Qed.

End App.
